(** * chamgo: scanning, patching and rewriting a Champion Go archive

    A shallow embedding of [go.go]: the saved-date reader [getSavedDate],
    the archive scan [readAvx], the record patch [flipBoard180] /
    [flipToComputer] and the archive copy [writeAvx], followed by the
    properties of these functions.

    Go values are modelled as follows.
    - [byte] is the standard 256-constructor type; [uint8] arithmetic is
      carried out in [Z] and wrapped with [u8].
    - [int32] is a [Z] in the two's complement range, produced by [to_int32].
    - a slice is its elements together with the rest of its backing array
      up to the capacity: index expressions are checked against the
      length, slice expressions against the capacity, as in Go.
    - a Go function returning an [error], or panicking, returns a [run]. *)

From Stdlib Require Import ZArith Lia ZifyNat List Bool.
From Stdlib.Strings Require Import String Ascii Byte.
From stdpp Require Import base tactics option list.
Import ListNotations.

Local Open Scope nat_scope.
Local Open Scope string_scope.
Local Open Scope list_scope.

(** ** Bytes and fixed-width integers *)

Module Num.

(** The numeric value of a byte. *)
Definition Zb (b : byte) : Z := Z.of_N (Byte.to_N b).

(** Conversion to [uint8]: the value modulo 256. *)
Definition u8 (z : Z) : byte :=
  match Byte.of_N (Z.to_N (z mod 256)) with
  | Some b => b
  | None => x00
  end.

(** [a - b] and [a + b] on [uint8] operands. *)
Definition u8_sub (a b : byte) : byte := u8 (Zb a - Zb b).
Definition u8_add (a b : byte) : byte := u8 (Zb a + Zb b).

(** Conversions [uint32(x)] and [int32(x)]. *)
Definition to_uint32 (z : Z) : Z := (z mod 2 ^ 32)%Z.
Definition to_int32 (z : Z) : Z := ((z + 2 ^ 31) mod 2 ^ 32 - 2 ^ 31)%Z.

Definition is_int32 (z : Z) : Prop := (- 2 ^ 31 <= z < 2 ^ 31)%Z.

(** [binary.LittleEndian.Uint32]:
    [uint32(b[0]) | uint32(b[1])<<8 | uint32(b[2])<<16 | uint32(b[3])<<24]. *)
Definition le_uint32 (b0 b1 b2 b3 : byte) : Z :=
  Z.lor (Z.lor (Z.lor (Zb b0) (Z.shiftl (Zb b1) 8))
               (Z.shiftl (Zb b2) 16))
        (Z.shiftl (Zb b3) 24).

(** [binary.LittleEndian.PutUint32]:
    [b[0] = byte(v); b[1] = byte(v >> 8); b[2] = byte(v >> 16);
     b[3] = byte(v >> 24)]. *)
Definition le_put_uint32 (v : Z) : list byte :=
  [u8 v; u8 (Z.shiftr v 8); u8 (Z.shiftr v 16); u8 (Z.shiftr v 24)].

End Num.
Import Num.

(** ** Outcomes of a Go call *)

(** Error values that the program passes around. *)
Inductive error : Type :=
| ErrIO (detail : string)                   (* reported by the file system or the zip reader *)
| ErrSink (detail : string)                 (* reported by the output writer *)
| ErrEOF                                    (* io.EOF *)
| ErrUnexpectedEOF                          (* io.ErrUnexpectedEOF *)
| ErrParse (b : list byte) (cause : error)  (* fmt.Errorf("parse %v error: %v", b, err) *)
| ErrWriteToDirectory.                      (* "zip: write to directory" *)

(** Run-time panics. *)
Inductive panic : Type :=
| IndexOutOfRange (i n : nat)               (* index i with length n *)
| SliceOutOfRange (hi c : nat).             (* slice bound hi with capacity c *)

(** The outcome of a call: a normal return, a returned [error], a panic,
    or a loop that was cut off by its iteration bound. *)
Inductive run (A : Type) : Type :=
| Ret (a : A)
| Fail (e : error)
| Panic (p : panic)
| OutOfFuel.

Arguments Ret {A} a.
Arguments Fail {A} e.
Arguments Panic {A} p.
Arguments OutOfFuel {A}.

Definition bind {A B : Type} (c : run A) (k : A -> run B) : run B :=
  match c with
  | Ret a => k a
  | Fail e => Fail e
  | Panic p => Panic p
  | OutOfFuel => OutOfFuel
  end.

Notation "'do' x <- c ; k" := (bind c (fun x => k))
  (at level 10, x name, c at level 100, k at level 200,
   format "'[v' 'do'  x  <-  c ; '/' k ']'").
Notation "'do' ' pat <- c ; k" :=
  (bind c (fun x => match x with pat => k end))
  (at level 10, pat pattern, c at level 100, k at level 200,
   format "'[v' 'do'  ' pat  <-  c ; '/' k ']'").

(** ** Slices *)

(** A [[]byte] value: [elems] are the [len] elements, [spare] is the part
    of the backing array between the length and the capacity.  The nil
    slice has neither. *)
Record slice : Type := Slice { elems : list byte; spare : list byte }.

Definition len (s : slice) : nat := length (elems s).
Definition backing (s : slice) : list byte := elems s ++ spare s.
Definition cap (s : slice) : nat := length (backing s).
Definition nil_slice : slice := Slice [] [].

(** A slice that fills its backing array, as [make([]byte, n)] or a
    literal gives. *)
Definition of_bytes (l : list byte) : slice := Slice l [].

(** [s[i]] as a value: panics unless [i < len(s)]. *)
Definition index (s : slice) (i : nat) : run byte :=
  match elems s !! i with
  | Some b => Ret b
  | None => Panic (IndexOutOfRange i (len s))
  end.

(** [s[i] = b]: panics unless [i < len(s)]. *)
Definition assign (s : slice) (i : nat) (b : byte) : run slice :=
  if decide (i < len s)
  then Ret (Slice (<[i := b]> (elems s)) (spare s))
  else Panic (IndexOutOfRange i (len s)).

(** [s[lo:hi]]: panics unless [lo <= hi <= cap(s)]; the result shares the
    backing array from [lo] on. *)
Definition reslice (s : slice) (lo hi : nat) : run slice :=
  if decide (hi <= cap s) then
    if decide (lo <= hi)
    then Ret (Slice (take (hi - lo) (drop lo (backing s))) (drop hi (backing s)))
    else Panic (SliceOutOfRange lo hi)
  else Panic (SliceOutOfRange hi (cap s)).

(** A store into the backing array at position [p < cap(s)], wherever [p]
    lies with respect to the length. *)
Definition poke (s : slice) (p : nat) (b : byte) : slice :=
  if decide (p < len s)
  then Slice (<[p := b]> (elems s)) (spare s)
  else Slice (elems s) (<[p - len s := b]> (spare s)).

Fixpoint poke_all (s : slice) (p : nat) (bs : list byte) : slice :=
  match bs with
  | [] => s
  | b :: bs' => poke_all (poke s p b) (S p) bs'
  end.

(** ** RecordTimestampReader: [getSavedDate] *)

(** [binary.Read(r, binary.LittleEndian, &t)] for [t : int32] on a reader
    holding [r]: four bytes are read in full, fewer give an error. *)
Definition binary_Read_int32 (r : list byte) : run Z :=
  match r with
  | b0 :: b1 :: b2 :: b3 :: _ => Ret (to_int32 (le_uint32 b0 b1 b2 b3))
  | [] => Fail ErrEOF
  | _ => Fail ErrUnexpectedEOF
  end.

Definition getSavedDate (body : slice) : run Z :=
  do b <- reslice body 60 64;
  match binary_Read_int32 (elems b) with
  | Fail err => Fail (ErrParse (elems b) err)
  | r => r
  end.

(** ** Archives as the zip reader presents them *)

(** Does [name] end in a slash? *)
Fixpoint is_dir_name (name : string) : bool :=
  match name with
  | EmptyString => false
  | String c EmptyString => Ascii.eqb c "/"
  | String _ rest => is_dir_name rest
  end.

(** One [*zip.File] of [r.File].
    - [ModeDir] is the directory bit carried by the entry's attributes;
    - [OpenErr] is the error of [f.Open()], if any;
    - [Data] is the slice [ioutil.ReadAll] returns for the entry: its
      elements are the payload, its spare capacity is what the read
      buffer had left;
    - [ReadErr] is the error met when the payload has been read (a
      checksum mismatch, for one), if any. *)
Record File : Type := {
  Name : string;
  ModeDir : bool;
  OpenErr : option error;
  Data : slice;
  ReadErr : option error
}.

(** [f.Mode().IsDir()]: the attribute bit, or a name ending in a slash. *)
Definition IsDir (f : File) : bool := ModeDir f || is_dir_name (Name f).

(** [f.Open()]. *)
Definition Open (f : File) : run File :=
  match OpenErr f with
  | Some err => Fail err
  | None => Ret f
  end.

(** [ioutil.ReadAll(rc)]. *)
Definition ReadAll (rc : File) : run slice :=
  match ReadErr rc with
  | Some err => Fail err
  | None => Ret (Data rc)
  end.

(** The file system seen through [zip.OpenReader]. *)
Definition FS : Type := string -> run (list File).

(** [filepath.HasPrefix(p, prefix)] (the Unix implementation). *)
Definition HasPrefix (p prefix : string) : bool := String.prefix prefix p.

(** ** ArchiveScanner: [readAvx] *)

Definition game_prefix (online : bool) : string :=
  if online then "Container/Documents/game-online/"
  else "Container/Documents/game/".

(** The body of the [for _, f := range r.File] loop, with the three
    loop-carried variables. *)
Fixpoint readAvx_loop (prefix : string) (files : list File)
    (latest : string) (latestBody : slice) (latestDate : Z)
    : run (string * slice) :=
  match files with
  | [] => Ret (latest, latestBody)
  | f :: rest =>
      if negb (HasPrefix (Name f) prefix) then
        readAvx_loop prefix rest latest latestBody latestDate
      else if IsDir f then
        readAvx_loop prefix rest latest latestBody latestDate
      else
        do body <- (do rc <- Open f; ReadAll rc);
        do savedDate <- getSavedDate body;
        if (savedDate >? latestDate)%Z
        then readAvx_loop prefix rest (Name f) body savedDate
        else readAvx_loop prefix rest latest latestBody latestDate
  end.

Definition readAvx (fs : FS) (f : string) (online : bool) : run (string * slice) :=
  do r <- fs f;
  let prefix := game_prefix online in
  readAvx_loop prefix r "" nil_slice (-1)%Z.

(** ** RecordMutator: [flipBoard180] and [flipToComputer] *)

(** The right-hand side [bs - c + 1], on [uint8]. *)
Definition flip_coord (bs c : byte) : byte := u8_add (u8_sub bs c) x01.

(** One pass through the loop body at stride start [i]. *)
Definition flip_stride (bs : byte) (i : nat) (body : slice) : run slice :=
  do c <- index body (i + 4);
  do body <- assign body (i + 4) (flip_coord bs c);
  do c <- index body (i + 8);
  assign body (i + 8) (flip_coord bs c).

(** [for i := 76; i < len(body); i += 20 { ... }], cut off after [fuel]
    iterations. *)
Fixpoint flipBoard180_loop (fuel : nat) (bs : byte) (i : nat) (body : slice)
    : run slice :=
  match fuel with
  | 0 => OutOfFuel
  | S fuel' =>
      if decide (i < len body) then
        do body <- flip_stride bs i body;
        flipBoard180_loop fuel' bs (i + 20) body
      else Ret body
  end.

Definition flipBoard180 (body : slice) : run slice :=
  do bs <- index body 8;
  flipBoard180_loop (S (len body)) bs 76 body.

(** A [bytes.Buffer] made by [bytes.NewBuffer(body[start:start])]: as long
    as what is written fits the capacity of [body], the buffer's bytes are
    [body]'s backing array from [start] on; once it has to grow, it moves
    to an array of its own. *)
Inductive Buffer : Type :=
| Aliased (start n : nat)
| Owned (data : list byte).

(** [buf.Write(p)], acting on the memory of [body]. *)
Definition Buffer_Write (body : slice) (buf : Buffer) (p : list byte)
    : slice * Buffer :=
  match buf with
  | Aliased start n =>
      if decide (length p <= cap body - start - n)
      then (poke_all body (start + n) p, Aliased start (n + length p))
      else (body, Owned (take n (drop start (backing body)) ++ p))
  | Owned data => (body, Owned (data ++ p))
  end.

(** [binary.Write(buf, binary.LittleEndian, v)] for [v : int32]. *)
Definition binary_Write_int32 (body : slice) (buf : Buffer) (v : Z)
    : slice * Buffer :=
  Buffer_Write body buf (le_put_uint32 (to_uint32 v)).

(** The last four statements of [flipToComputer]; [unix] is
    [time.Now().Unix()]. *)
Definition refreshDates (unix : Z) (body : slice) : run slice :=
  do _ <- reslice body 56 56;
  let buf := Aliased 56 0 in
  let now := to_int32 unix in
  let '(body, buf) := binary_Write_int32 body buf now in (* started date *)
  let '(body, _) := binary_Write_int32 body buf now in   (* saved date *)
  Ret body.

(** [player] is the value of the [-p] flag. *)
Definition flipToComputer (player : string) (unix : Z) (body : slice)
    : run slice :=
  do body <- assign body 4 x01;
  do body <- (if String.eqb player "w"
              then do body <- assign body 12 x01; flipBoard180 body
              else assign body 12 x00);
  do body <- assign body 16 x0a;
  refreshDates unix body.

(** ** The zip writer *)

(** Compression method identifiers of a zip header ([zip.Store] = 0,
    [zip.Deflate] = 8). *)
Inductive method : Type := Store | Deflate.

Definition method_eqb (a b : method) : bool :=
  match a, b with
  | Store, Store | Deflate, Deflate => true
  | _, _ => false
  end.

(** What turns payload bytes into stored bytes: the identity, or a flate
    writer of some level. *)
Inductive compressor : Type :=
| Raw
| Flate (level : Z).

Definition flate_NoCompression : Z := 0.

(** The package-level compressors of [archive/zip]: [Store] copies,
    [Deflate] is [flate.NewWriter(w, 5)]. *)
Definition default_compressor (m : method) : compressor :=
  match m with
  | Store => Raw
  | Deflate => Flate 5
  end.

(** An entry of the archive under construction: its header name and
    method, the compressor its writer was given (none for a directory) and
    the payload written to it so far. *)
Record OutFile : Type := {
  oName : string;
  oMethod : method;
  oComp : option compressor;
  oData : list byte
}.

(** The output [io.Writer]: whether the [k]-th operation that reaches it
    reports an error. *)
Definition Sink : Type := nat -> option error.

(** A [*zip.Writer]: its sink and the number of operations that reached
    it, the compressors registered on this writer, the entries already
    completed, the entry being written, and whether [Close] has written
    the central directory. *)
Record Writer : Type := {
  sink : Sink;
  ops : nat;
  compressors : method -> option compressor;
  dir : list OutFile;
  cur : option OutFile;
  closed : bool
}.

(** [zip.NewWriter(w)]. *)
Definition NewWriter (w : Sink) : Writer :=
  {| sink := w; ops := 0; compressors := fun _ => None;
     dir := []; cur := None; closed := false |}.

(** [zw.RegisterCompressor(m, comp)]. *)
Definition RegisterCompressor (zw : Writer) (m : method) (comp : compressor)
    : Writer :=
  {| sink := sink zw; ops := ops zw;
     compressors := fun m' => if method_eqb m' m then Some comp else compressors zw m';
     dir := dir zw; cur := cur zw; closed := closed zw |}.

(** The compressor the writer uses for [m]: its own, else the package's. *)
Definition compressor_for (zw : Writer) (m : method) : compressor :=
  match compressors zw m with
  | Some comp => comp
  | None => default_compressor m
  end.

(** One operation reaching the sink. *)
Definition to_sink (zw : Writer) : run Writer :=
  match sink zw (ops zw) with
  | Some err => Fail err
  | None =>
      Ret {| sink := sink zw; ops := S (ops zw); compressors := compressors zw;
             dir := dir zw; cur := cur zw; closed := closed zw |}
  end.

Definition completed (zw : Writer) : list OutFile :=
  dir zw ++ match cur zw with Some o => [o] | None => [] end.

(** [zw.Create(name)]: completes the entry being written and starts one
    named [name] whose header asks for [Deflate]; a name ending in a slash
    makes a directory, kept with method [Store] and without a compressor. *)
Definition Create (zw : Writer) (name : string) : run Writer :=
  do zw <- to_sink zw;
  let o :=
    if is_dir_name name
    then {| oName := name; oMethod := Store; oComp := None; oData := [] |}
    else {| oName := name; oMethod := Deflate;
            oComp := Some (compressor_for zw Deflate); oData := [] |} in
  Ret {| sink := sink zw; ops := ops zw; compressors := compressors zw;
         dir := completed zw; cur := Some o; closed := closed zw |}.

(** [of.Write(p)] on the writer [Create] returned last. *)
Definition Write (zw : Writer) (p : list byte) : run Writer :=
  match cur zw with
  | None => Ret zw
  | Some o =>
      match oComp o with
      | None =>
          match p with
          | [] => Ret zw
          | _ :: _ => Fail ErrWriteToDirectory
          end
      | Some _ =>
          do zw <- to_sink zw;
          Ret {| sink := sink zw; ops := ops zw; compressors := compressors zw;
                 dir := dir zw;
                 cur := Some {| oName := oName o; oMethod := oMethod o;
                                oComp := oComp o; oData := oData o ++ p |};
                 closed := closed zw |}
      end
  end.

(** [io.Copy(of, rc)]: what the reader yields is written, then the
    reader's error, if any, is returned. *)
Definition Copy (zw : Writer) (rc : File) : run Writer :=
  do zw <- match elems (Data rc) with
           | [] => Ret zw
           | p => Write zw p
           end;
  match ReadErr rc with
  | Some err => Fail err
  | None => Ret zw
  end.

(** [zw.Close()]. *)
Definition Close (zw : Writer) : run Writer :=
  do zw <- to_sink zw;
  Ret {| sink := sink zw; ops := ops zw; compressors := compressors zw;
         dir := completed zw; cur := None; closed := true |}.

(** ** ArchiveRewriter: [writeAvx] *)

(** The function literal called for each [f] of [r.File]. *)
Definition writeAvx_entry (zw : Writer) (f : File)
    (latestBody : slice) (firstOnline : string) : run Writer :=
  do rc <- Open f;
  do zw <- Create zw (Name f);
  if String.eqb (Name f) firstOnline
  then Write zw (elems latestBody)
  else Copy zw rc.

Fixpoint writeAvx_loop (zw : Writer) (files : list File)
    (latestBody : slice) (firstOnline : string) : run Writer :=
  match files with
  | [] => Ret zw
  | f :: rest =>
      do zw <- writeAvx_entry zw f latestBody firstOnline;
      writeAvx_loop zw rest latestBody firstOnline
  end.

Definition writeAvx (fs : FS) (w : Sink) (avxName : string)
    (latestBody : slice) (firstOnline : string) : run Writer :=
  let zw := NewWriter w in
  let zw := RegisterCompressor zw Deflate (Flate flate_NoCompression) in
  do r <- fs avxName;
  do zw <- writeAvx_loop zw r latestBody firstOnline;
  Close zw.

(** ** Orchestrator: [main] *)

(** [inAvx] and [player] are the flags, [unix] the clock and [w] the
    standard output; a failure is what [log.Fatal] reports. *)
Definition main (fs : FS) (w : Sink) (inAvx player : string) (unix : Z)
    : run Writer :=
  do '(_, latestBody) <- readAvx fs inAvx false;
  do '(firstOnline, _) <- readAvx fs inAvx true;
  do latestBody <- flipToComputer player unix latestBody;
  writeAvx fs w inAvx latestBody firstOnline.

(** ** Vocabulary of the statements *)

(** The entries a scan under [prefix] looks at. *)
Definition matching (prefix : string) (f : File) : bool :=
  HasPrefix (Name f) prefix && negb (IsDir f).

(** [f] can be read and its saved date decodes to [t]. *)
Definition dated (f : File) (t : Z) : Prop :=
  OpenErr f = None /\ ReadErr f = None /\ getSavedDate (Data f) = Ret t.

(** A regular entry named [name] whose payload is [data], read into a
    buffer with [slack] bytes to spare. *)
Definition entry (name : string) (data slack : list byte) : File :=
  {| Name := name; ModeDir := false; OpenErr := None;
     Data := Slice data slack; ReadErr := None |}.

(** A record of [64 + n] bytes, all zero but for its saved date
    [d0 d1 d2 d3]. *)
Definition record_dated (d0 d1 d2 d3 : byte) (n : nat) : list byte :=
  repeat x00 60 ++ [d0; d1; d2; d3] ++ repeat x00 n.

(** Position [p] holds a coordinate of a stride that starts at [i0] or a
    multiple of 20 after it: it lies 4 or 8 bytes into its stride. *)
Definition is_coord (i0 p : nat) : bool :=
  ((i0 <=? p) && (((p - i0) mod 20 =? 4) || ((p - i0) mod 20 =? 8)))%nat.

(** The elements [l] with every coordinate from [i0] on reflected. *)
Definition flipped (bs : byte) (i0 : nat) (l : list byte) : list byte :=
  imap (fun p c => if is_coord i0 p then flip_coord bs c else c) l.

(** In a buffer of [n] bytes, every stride from [i0] on that starts
    inside the buffer has both its coordinates inside it. *)
Definition whole_strides (i0 n : nat) : Prop :=
  forall k, i0 + 20 * k < n -> i0 + 20 * k + 8 < n.

(** What [writeAvx] hands to the writer for the entry [f]. *)
Definition written_for (latestBody : slice) (firstOnline : string) (f : File)
    : list byte :=
  if String.eqb (Name f) firstOnline then elems latestBody else elems (Data f).

(** The output entry [writeAvx] makes of [f]. *)
Definition rewritten (latestBody : slice) (firstOnline : string) (f : File)
    : OutFile :=
  if is_dir_name (Name f)
  then {| oName := Name f; oMethod := Store; oComp := None; oData := [] |}
  else {| oName := Name f; oMethod := Deflate;
          oComp := Some (Flate flate_NoCompression);
          oData := written_for latestBody firstOnline f |}.

(** The writer carries the compressor [writeAvx] registered. *)
Definition registered (zw : Writer) : Prop :=
  compressors zw Deflate = Some (Flate flate_NoCompression).

(** A sink that takes everything; an entry that opens and reads. *)
Definition reliable (w : Sink) : Prop := forall k, w k = None.
Definition readable (f : File) : Prop := OpenErr f = None /\ ReadErr f = None.
Definition quiet : Sink := fun _ => None.

(** Sample records and archives. *)

Definition short_record : slice := of_bytes (repeat x00 10).

Definition torn_record : slice := of_bytes (repeat x00 77).

(** A 96-byte record: board size 19, saved date 100, one stride with
    coordinates 3 and 4. *)
Definition board_record : slice :=
  of_bytes (repeat x00 8 ++ [x13] ++ repeat x00 51 ++ [x64; x00; x00; x00]
            ++ repeat x00 12
            ++ repeat x00 4 ++ [x03] ++ repeat x00 3 ++ [x04] ++ repeat x00 11).

Definition docs_dir : File :=
  {| Name := "Container/Documents/"; ModeDir := true; OpenErr := None;
     Data := nil_slice; ReadErr := None |}.
Definition game_old : File :=
  entry "Container/Documents/game/old" (record_dated xfe xff xff xff 20) [].
Definition game_a : File :=
  entry "Container/Documents/game/a" (record_dated x64 x00 x00 x00 32) [].
Definition game_b : File :=
  entry "Container/Documents/game/b" (record_dated x64 x00 x00 x00 16) [].
Definition game_c : File :=
  entry "Container/Documents/game/c" (record_dated x05 x00 x00 x00 16) [].
Definition game_short : File :=
  entry "Container/Documents/game/s" (repeat x00 10) [].
Definition online_x : File :=
  entry "Container/Documents/game-online/x.dat" (record_dated x07 x00 x00 x00 16) [].

Definition sample_files : list File :=
  [docs_dir; game_c; game_a; game_b; online_x].
Definition stale_files : list File := [docs_dir; game_old; online_x].

(** An entry outside both game directories that cannot be opened, and a
    game entry whose payload fails its checksum. *)
Definition prefs_locked : File :=
  {| Name := "Container/Library/prefs"; ModeDir := false;
     OpenErr := Some (ErrIO "unsupported compression"); Data := nil_slice;
     ReadErr := None |}.
Definition game_corrupt : File :=
  {| Name := "Container/Documents/game/bad"; ModeDir := false; OpenErr := None;
     Data := of_bytes (record_dated x09 x00 x00 x00 16);
     ReadErr := Some (ErrIO "checksum error") |}.

(** A file system holding one archive, whatever the path. *)
Definition holding (files : list File) : FS := fun _ => Ret files.

(** * Properties *)

(** Arithmetic on [nat] with division and remainder by constants. *)
Ltac nat_mod := zify; Z.to_euclidean_division_equations; lia.

(** ** Bytes and integers *)

Section NumFacts.

Local Open Scope Z_scope.

Lemma Zb_range (b : byte) : 0 <= Zb b < 256.
Proof.
  unfold Zb. pose proof (Byte.to_N_bounded b). lia.
Qed.

Lemma Zb_u8 (z : Z) : Zb (u8 z) = z mod 256.
Proof.
  unfold u8.
  assert (Hr : 0 <= z mod 256 < 256) by (apply Z.mod_pos_bound; lia).
  destruct (Byte.of_N (Z.to_N (z mod 256))) as [b|] eqn:E.
  - apply Byte.to_of_N in E. unfold Zb. rewrite E. lia.
  - apply Byte.of_N_None_iff in E. lia.
Qed.

Lemma u8_Zb (b : byte) : u8 (Zb b) = b.
Proof.
  unfold u8. pose proof (Zb_range b) as Hr.
  rewrite Z.mod_small by lia.
  unfold Zb. rewrite N2Z.id, Byte.of_to_N. reflexivity.
Qed.

Lemma Zb_inj (a b : byte) : Zb a = Zb b -> a = b.
Proof.
  intros H. rewrite <- (u8_Zb a), <- (u8_Zb b), H. reflexivity.
Qed.

Lemma Zb_flip_coord (bs c : byte) :
  Zb (flip_coord bs c) = ((Zb bs - Zb c) mod 256 + 1) mod 256.
Proof.
  unfold flip_coord, u8_add, u8_sub. rewrite !Zb_u8. reflexivity.
Qed.

Lemma flip_coord_involutive (bs c : byte) :
  flip_coord bs (flip_coord bs c) = c.
Proof.
  apply Zb_inj. rewrite Zb_flip_coord, Zb_flip_coord.
  pose proof (Zb_range bs). pose proof (Zb_range c).
  Z.div_mod_to_equations. lia.
Qed.

Lemma land_low_shiftl (a b k : Z) :
  0 <= k -> 0 <= a < 2 ^ k -> Z.land a (Z.shiftl b k) = 0.
Proof.
  intros Hk Ha. apply Z.bits_inj'. intros n Hn.
  rewrite Z.land_spec, Z.bits_0.
  destruct (Z.lt_ge_cases n k) as [Hlt|Hge].
  - rewrite Z.shiftl_spec_low by lia. apply andb_false_r.
  - replace (Z.testbit a n) with false; [reflexivity|].
    symmetry. destruct (Z.eq_dec a 0) as [->|Hne]; [apply Z.bits_0|].
    apply Z.bits_above_log2; [lia|].
    apply Z.log2_lt_pow2; [lia|].
    apply Z.lt_le_trans with (2 ^ k); [lia|].
    apply Z.pow_le_mono_r; lia.
Qed.

Lemma lor_low_shiftl (a b k : Z) :
  0 <= k -> 0 <= a < 2 ^ k -> Z.lor a (Z.shiftl b k) = a + b * 2 ^ k.
Proof.
  intros Hk Ha.
  pose proof (land_low_shiftl a b k Hk Ha) as Hl.
  rewrite <- Z.lxor_lor by exact Hl.
  rewrite <- Z.add_nocarry_lxor by exact Hl.
  rewrite Z.shiftl_mul_pow2 by lia. reflexivity.
Qed.

Lemma le_uint32_value (b0 b1 b2 b3 : byte) :
  le_uint32 b0 b1 b2 b3
  = Zb b0 + Zb b1 * 2 ^ 8 + Zb b2 * 2 ^ 16 + Zb b3 * 2 ^ 24.
Proof.
  unfold le_uint32.
  pose proof (Zb_range b0). pose proof (Zb_range b1).
  pose proof (Zb_range b2). pose proof (Zb_range b3).
  rewrite (lor_low_shiftl (Zb b0) (Zb b1) 8) by lia.
  rewrite (lor_low_shiftl _ (Zb b2) 16) by lia.
  rewrite (lor_low_shiftl _ (Zb b3) 24) by lia.
  reflexivity.
Qed.

Lemma le_uint32_range (b0 b1 b2 b3 : byte) :
  0 <= le_uint32 b0 b1 b2 b3 < 2 ^ 32.
Proof.
  rewrite le_uint32_value.
  pose proof (Zb_range b0). pose proof (Zb_range b1).
  pose proof (Zb_range b2). pose proof (Zb_range b3). lia.
Qed.

Lemma to_int32_range (z : Z) : is_int32 (to_int32 z).
Proof.
  unfold is_int32, to_int32.
  pose proof (Z.mod_pos_bound (z + 2 ^ 31) (2 ^ 32)). lia.
Qed.

Lemma to_int32_id (z : Z) : is_int32 z -> to_int32 z = z.
Proof.
  unfold is_int32, to_int32. intros H.
  rewrite Z.mod_small by lia. lia.
Qed.

(** Decoding what [PutUint32] wrote gives the value back. *)
Lemma le_uint32_put (v : Z) :
  0 <= v < 2 ^ 32 ->
  match le_put_uint32 v with
  | [b0; b1; b2; b3] => le_uint32 b0 b1 b2 b3 = v
  | _ => False
  end.
Proof.
  intros Hv. unfold le_put_uint32.
  rewrite le_uint32_value, !Zb_u8, !Z.shiftr_div_pow2 by lia.
  change (2 ^ 8) with 256. change (2 ^ 16) with 65536.
  change (2 ^ 24) with 16777216. change (2 ^ 32) with 4294967296 in Hv.
  Z.div_mod_to_equations. lia.
Qed.

Lemma to_int32_to_uint32 (z : Z) : to_int32 (to_uint32 z) = to_int32 z.
Proof.
  unfold to_int32, to_uint32.
  change (2 ^ 32) with 4294967296. change (2 ^ 31) with 2147483648.
  Z.div_mod_to_equations. lia.
Qed.

End NumFacts.

(** ** Sequencing *)

Lemma bind_Ret {A B : Type} (a : A) (k : A -> run B) : bind (Ret a) k = k a.
Proof. reflexivity. Qed.

Lemma Ret_inj {A : Type} (a b : A) : Ret a = Ret b -> a = b.
Proof. intros H. injection H as H. exact H. Qed.

(** ** Slices *)

Section SliceFacts.

Implicit Types (s body : slice) (b : byte) (i p : nat).

Lemma cap_len s : cap s = len s + length (spare s).
Proof. unfold cap, backing, len. apply length_app. Qed.

Lemma len_le_cap s : len s <= cap s.
Proof. rewrite cap_len. lia. Qed.

Lemma elems_backing s : elems s = take (len s) (backing s).
Proof. unfold backing, len. symmetry. apply take_app_length. Qed.

Lemma spare_backing s : spare s = drop (len s) (backing s).
Proof. unfold backing, len. symmetry. apply drop_app_length. Qed.

Lemma slice_eq s1 s2 :
  len s1 = len s2 -> backing s1 = backing s2 -> s1 = s2.
Proof.
  intros Hl Hb. destruct s1 as [e1 r1], s2 as [e2 r2].
  pose proof (elems_backing (Slice e1 r1)) as E1.
  pose proof (elems_backing (Slice e2 r2)) as E2.
  pose proof (spare_backing (Slice e1 r1)) as R1.
  pose proof (spare_backing (Slice e2 r2)) as R2.
  rewrite Hl, Hb in E1, R1. simpl in *. congruence.
Qed.

Lemma index_Ret s i b : elems s !! i = Some b -> index s i = Ret b.
Proof. unfold index. intros ->. reflexivity. Qed.

Lemma index_Panic s i :
  len s <= i -> index s i = Panic (IndexOutOfRange i (len s)).
Proof.
  unfold index, len. intros H.
  rewrite lookup_ge_None_2 by exact H. reflexivity.
Qed.

Lemma assign_Ret s i b :
  i < len s -> assign s i b = Ret (Slice (<[i := b]> (elems s)) (spare s)).
Proof. unfold assign. intros H. rewrite decide_True by exact H. reflexivity. Qed.

Lemma assign_Panic s i b :
  len s <= i -> assign s i b = Panic (IndexOutOfRange i (len s)).
Proof. unfold assign. intros H. rewrite decide_False by lia. reflexivity. Qed.

Lemma poke_len s p b : len (poke s p b) = len s.
Proof.
  unfold poke, len. destruct (decide _); simpl; [apply length_insert | reflexivity].
Qed.

Lemma poke_backing s p b : backing (poke s p b) = <[p := b]> (backing s).
Proof.
  unfold poke, backing, len. destruct (decide _) as [H|H]; simpl.
  - symmetry. apply insert_app_l. exact H.
  - symmetry. apply insert_app_r_alt. lia.
Qed.

Lemma poke_all_len s p bs : len (poke_all s p bs) = len s.
Proof.
  revert s p. induction bs as [|b bs IH]; intros s p; simpl; [reflexivity|].
  rewrite IH. apply poke_len.
Qed.

Lemma poke_all_backing s p bs :
  backing (poke_all s p bs) = list_inserts p bs (backing s).
Proof.
  revert s p. induction bs as [|b bs IH]; intros s p; simpl; [reflexivity|].
  rewrite IH, poke_backing. symmetry. apply list_insert_inserts_lt. lia.
Qed.

(** Reading a slice's elements through its backing array. *)
Lemma lookup_elems s i :
  elems s !! i = if decide (i < len s) then backing s !! i else None.
Proof.
  unfold backing, len. destruct (decide _) as [H|H].
  - symmetry. apply lookup_app_l. exact H.
  - apply lookup_ge_None_2. lia.
Qed.

End SliceFacts.

(** ** The saved date *)

Section SavedDate.

Implicit Types (body : slice).

(** The four bytes [getSavedDate] decodes, when the capacity allows. *)
Lemma getSavedDate_Ret body b0 b1 b2 b3 :
  take 4 (drop 60 (backing body)) = [b0; b1; b2; b3] ->
  getSavedDate body = Ret (to_int32 (le_uint32 b0 b1 b2 b3)).
Proof.
  intros H. unfold getSavedDate, reslice.
  assert (Hc : 64 <= cap body).
  { apply (f_equal length) in H. rewrite length_take, length_drop in H.
    unfold cap. cbn [length] in H. lia. }
  rewrite decide_True by exact Hc. rewrite decide_True by lia.
  simpl. change (64 - 60) with 4. rewrite H. reflexivity.
Qed.

Lemma getSavedDate_Panic body :
  cap body < 64 -> getSavedDate body = Panic (SliceOutOfRange 64 (cap body)).
Proof.
  intros H. unfold getSavedDate, reslice.
  rewrite decide_False by lia. reflexivity.
Qed.

Lemma four_bytes (l : list byte) :
  64 <= length l ->
  exists b0 b1 b2 b3, take 4 (drop 60 l) = [b0; b1; b2; b3].
Proof.
  intros H.
  assert (Hl : length (take 4 (drop 60 l)) = 4)
    by (rewrite length_take, length_drop; lia).
  destruct (take 4 (drop 60 l)) as [|b0 [|b1 [|b2 [|b3 [|? ?]]]]];
    simpl in Hl; try discriminate.
  eauto.
Qed.

(** [getSavedDate] has two outcomes only: a panic when the capacity is
    below 64, a date otherwise.  Its error return is never taken. *)
Lemma getSavedDate_cases body :
  (cap body < 64 /\ getSavedDate body = Panic (SliceOutOfRange 64 (cap body)))
  \/ (64 <= cap body /\ exists t, getSavedDate body = Ret t /\ is_int32 t).
Proof.
  destruct (decide (cap body < 64)) as [H|H].
  - left. split; [exact H | apply getSavedDate_Panic; exact H].
  - right. split; [lia|].
    destruct (four_bytes (backing body)) as (b0 & b1 & b2 & b3 & E);
      [unfold cap in H; lia|].
    eexists. split; [apply getSavedDate_Ret; exact E | apply to_int32_range].
Qed.

Lemma getSavedDate_never_fails body err : getSavedDate body <> Fail err.
Proof.
  destruct (getSavedDate_cases body) as [[_ H]|[_ (t & H & _)]];
    rewrite H; discriminate.
Qed.

Lemma getSavedDate_Ret_cap body t : getSavedDate body = Ret t -> 64 <= cap body.
Proof.
  intros H. destruct (getSavedDate_cases body) as [[_ H']|[Hc _]];
    [congruence | exact Hc].
Qed.

End SavedDate.

(** ** The scan *)

Section Scan.

Local Open Scope Z_scope.

Implicit Types (files ms : list File) (f e : File) (prefix latest : string)
  (latestBody : slice) (latestDate t : Z).

Lemma readAvx_loop_skip prefix f files latest latestBody latestDate :
  matching prefix f = false ->
  readAvx_loop prefix (f :: files) latest latestBody latestDate
  = readAvx_loop prefix files latest latestBody latestDate.
Proof.
  unfold matching. intros H. simpl.
  destruct (HasPrefix (Name f) prefix); simpl in *; [|reflexivity].
  destruct (IsDir f); [reflexivity | discriminate].
Qed.

Lemma readAvx_loop_dated prefix f files latest latestBody latestDate t :
  matching prefix f = true -> dated f t ->
  readAvx_loop prefix (f :: files) latest latestBody latestDate
  = if t >? latestDate
    then readAvx_loop prefix files (Name f) (Data f) t
    else readAvx_loop prefix files latest latestBody latestDate.
Proof.
  unfold matching, dated. intros H (Ho & Hr & Hd). simpl.
  apply andb_true_iff in H. destruct H as [Hp Hn].
  rewrite Hp. apply negb_true_iff in Hn. rewrite Hn. simpl.
  unfold Open, ReadAll. rewrite Ho. simpl. rewrite Hr. simpl.
  rewrite Hd. reflexivity.
Qed.

(** Only the matching entries count. *)
Lemma readAvx_loop_filter prefix files latest latestBody latestDate :
  readAvx_loop prefix files latest latestBody latestDate
  = readAvx_loop prefix (filter (fun f => matching prefix f = true) files)
      latest latestBody latestDate.
Proof.
  revert latest latestBody latestDate.
  induction files as [|f files IH]; intros latest latestBody latestDate;
    [reflexivity|].
  rewrite filter_cons. destruct (decide (matching prefix f = true)) as [H|H].
  - unfold matching in H. apply andb_true_iff in H. destruct H as [Hp Hn].
    apply negb_true_iff in Hn. simpl. rewrite Hp, Hn. simpl.
    destruct (bind (Open f) ReadAll) as [b| | |]; simpl; try reflexivity.
    destruct (getSavedDate b) as [t| | |]; simpl; try reflexivity.
    destruct (t >? latestDate); apply IH.
  - apply not_true_is_false in H. rewrite readAvx_loop_skip by exact H.
    apply IH.
Qed.

Lemma readAvx_loop_no_match prefix files latest latestBody latestDate :
  filter (fun f => matching prefix f = true) files = [] ->
  readAvx_loop prefix files latest latestBody latestDate
  = Ret (latest, latestBody).
Proof. intros H. rewrite readAvx_loop_filter, H. reflexivity. Qed.

(** Entries dated no later than the running maximum leave it alone. *)
Lemma readAvx_loop_not_later prefix ms latest latestBody latestDate :
  Forall (fun f => matching prefix f = true) ms ->
  Forall (fun f => exists t, dated f t /\ t <= latestDate) ms ->
  readAvx_loop prefix ms latest latestBody latestDate = Ret (latest, latestBody).
Proof.
  induction ms as [|f ms IH]; intros Hm Hd; [reflexivity|].
  inversion Hm as [|? ? Hf Hm']; subst.
  inversion Hd as [|? ? (t & Hft & Hle) Hd']; subst.
  rewrite (readAvx_loop_dated _ _ _ _ _ _ t Hf Hft).
  replace (t >? latestDate) with false by (rewrite Z.gtb_ltb; symmetry; apply Z.ltb_ge; lia).
  apply IH; assumption.
Qed.

(** The first entry carrying the greatest date wins, once that date
    exceeds the running maximum. *)
Lemma readAvx_loop_first_latest prefix l1 e l2 te latest latestBody latestDate :
  Forall (fun f => matching prefix f = true) (l1 ++ e :: l2) ->
  Forall (fun f => exists t, dated f t /\ t < te) l1 ->
  dated e te ->
  Forall (fun f => exists t, dated f t /\ t <= te) l2 ->
  latestDate < te ->
  readAvx_loop prefix (l1 ++ e :: l2) latest latestBody latestDate
  = Ret (Name e, Data e).
Proof.
  revert latest latestBody latestDate.
  induction l1 as [|f l1 IH]; intros latest latestBody latestDate Hm H1 He H2 Hlt.
  - simpl in Hm. inversion Hm as [|? ? Hf Hm']; subst.
    rewrite app_nil_l, (readAvx_loop_dated _ _ _ _ _ _ te Hf He).
    replace (te >? latestDate) with true by (rewrite Z.gtb_ltb; symmetry; apply Z.ltb_lt; lia).
    apply readAvx_loop_not_later; assumption.
  - rewrite <- app_comm_cons in *.
    inversion Hm as [|? ? Hf Hm']; subst.
    inversion H1 as [|? ? (t & Hft & Hle) H1']; subst.
    rewrite (readAvx_loop_dated _ _ _ _ _ _ t Hf Hft).
    destruct (t >? latestDate); apply IH; assumption || lia.
Qed.

(** What the loop returns is what it started from or an entry dated
    after the initial maximum. *)
Lemma readAvx_loop_selected prefix files latest latestBody latestDate name b :
  readAvx_loop prefix files latest latestBody latestDate = Ret (name, b) ->
  (name = latest /\ b = latestBody)
  \/ exists e t, In e files /\ matching prefix e = true /\ Name e = name
       /\ Data e = b /\ dated e t /\ latestDate < t.
Proof.
  revert latest latestBody latestDate.
  induction files as [|f files IH]; intros latest latestBody latestDate H.
  - simpl in H. left. split; congruence.
  - assert (Hstep : forall l lb ld,
               latestDate <= ld ->
               readAvx_loop prefix files l lb ld = Ret (name, b) ->
               (name = l /\ b = lb)
               \/ exists e t, In e (f :: files) /\ matching prefix e = true
                    /\ Name e = name /\ Data e = b /\ dated e t /\ latestDate < t).
    { intros l lb ld Hle Hr. destruct (IH _ _ _ Hr) as [?|(e & t & Hin & ? & ? & ? & ? & ?)];
        [left; assumption|].
      right. exists e, t. split; [right; exact Hin|].
      repeat (split; [assumption|]). lia. }
    destruct (matching prefix f) eqn:Hm.
    + simpl in H. unfold matching in Hm. apply andb_true_iff in Hm.
      destruct Hm as [Hp Hn]. apply negb_true_iff in Hn.
      rewrite Hp, Hn in H. simpl in H.
      unfold Open, ReadAll in H.
      destruct (OpenErr f) eqn:Ho; [discriminate|]. simpl in H.
      destruct (ReadErr f) eqn:Hr; [discriminate|]. simpl in H.
      destruct (getSavedDate (Data f)) as [t| | |] eqn:Hd; try discriminate.
      simpl in H. destruct (t >? latestDate) eqn:Hgt.
      * rewrite Z.gtb_ltb in Hgt. apply Z.ltb_lt in Hgt.
        apply Hstep in H; [|lia]. destruct H as [[-> ->]|?]; [|right; assumption].
        right. exists f, t. split; [left; reflexivity|].
        split; [unfold matching; rewrite Hp, Hn; reflexivity|].
        repeat (split; [reflexivity|]).
        split; [|exact Hgt]. unfold dated. auto.
      * apply Hstep in H; [exact H | lia].
    + rewrite readAvx_loop_skip in H by exact Hm.
      apply Hstep in H; [exact H | lia].
Qed.

Lemma Forall_filter_matching prefix files :
  Forall (fun f => matching prefix f = true)
    (filter (fun f => matching prefix f = true) files).
Proof.
  apply List.Forall_forall. intros x Hx.
  apply (proj2 (list_elem_of_In _ _)) in Hx.
  apply list_elem_of_filter in Hx. apply Hx.
Qed.

End Scan.

(** ** Claims about the scan *)

Section ScanClaims.

Local Open Scope Z_scope.

(** C2, as stated, does not hold: a scan of an archive without any
    entry under the prefix is not an error return.  The empty archive
    is scanned successfully. *)
Lemma readAvx_no_match_is_not_an_error :
  ~ (forall (fs : FS) (f : string) (online : bool) (files : list File),
        fs f = Ret files ->
        filter (fun x => matching (game_prefix online) x = true) files = [] ->
        exists err, readAvx fs f online = Fail err).
Proof.
  intros H.
  destruct (H (holding []) "in.avx" false [] eq_refl eq_refl) as [err Herr].
  discriminate Herr.
Qed.

(** C2, amended: when no non-directory entry's name starts with the
    prefix, [readAvx] returns normally, with the empty name and the nil
    payload it started from, and no error. *)
Theorem readAvx_no_match (fs : FS) (f : string) (online : bool)
    (files : list File) :
  fs f = Ret files ->
  filter (fun x => matching (game_prefix online) x = true) files = [] ->
  readAvx fs f online = Ret ("", nil_slice).
Proof.
  intros Hfs Hnone. unfold readAvx. rewrite Hfs. simpl.
  apply readAvx_loop_no_match. exact Hnone.
Qed.

Lemma readAvx_no_match_witness :
  readAvx (holding [docs_dir; online_x]) "in.avx" false = Ret ("", nil_slice).
Proof.
  apply (readAvx_no_match (holding [docs_dir; online_x]) "in.avx" false
           [docs_dir; online_x]); reflexivity.
Defined.

(** C3, on the code: [getSavedDate] slices [body[60:64]] before anything
    else, so a 10-byte buffer makes it panic when its capacity is 10,
    and return the date 0 read beyond its length when its capacity is
    512; neither is an error return.  A scan meeting the former entry
    panics. *)
Theorem getSavedDate_short_buffer :
  getSavedDate short_record = Panic (SliceOutOfRange 64 10)
  /\ getSavedDate (Slice (repeat x00 10) (repeat x00 502)) = Ret 0
  /\ readAvx (holding [game_short]) "in.avx" false
     = Panic (SliceOutOfRange 64 10).
Proof. repeat split; vm_compute; reflexivity. Qed.

(** C4, as stated, does not hold: the latest of the matching entries is
    not returned when its date is negative. *)
Lemma readAvx_latest_negative :
  ~ (forall (fs : FS) (f : string) (online : bool) (files l1 l2 : list File)
            (e : File) (te : Z),
        fs f = Ret files ->
        filter (fun x => matching (game_prefix online) x = true) files
        = l1 ++ e :: l2 ->
        Forall (fun x => exists t, dated x t /\ t < te) l1 ->
        dated e te ->
        Forall (fun x => exists t, dated x t /\ t <= te) l2 ->
        readAvx fs f online = Ret (Name e, Data e)).
Proof.
  intros H.
  specialize (H (holding stale_files) "in.avx" false stale_files [] []
                game_old (-2) eq_refl eq_refl ltac:(constructor)).
  assert (Hd : dated game_old (-2)) by (repeat split; reflexivity).
  specialize (H Hd ltac:(constructor)).
  vm_compute in H. discriminate H.
Qed.

(** C4, amended: when the archive opens, every entry under the prefix
    can be read and dated, and the greatest of their dates is not
    negative, [readAvx] returns the name and payload of the first entry,
    in the archive's order, that carries the greatest date. *)
Theorem readAvx_latest (fs : FS) (f : string) (online : bool)
    (files l1 l2 : list File) (e : File) (te : Z) :
  fs f = Ret files ->
  filter (fun x => matching (game_prefix online) x = true) files
  = l1 ++ e :: l2 ->
  Forall (fun x => exists t, dated x t /\ t < te) l1 ->
  dated e te ->
  Forall (fun x => exists t, dated x t /\ t <= te) l2 ->
  0 <= te ->
  readAvx fs f online = Ret (Name e, Data e).
Proof.
  intros Hfs Hsplit H1 He H2 Hte. unfold readAvx. rewrite Hfs. simpl.
  rewrite readAvx_loop_filter, Hsplit.
  apply readAvx_loop_first_latest with (te := te); try assumption; [|lia].
  rewrite <- Hsplit. apply Forall_filter_matching.
Qed.

Lemma readAvx_latest_witness :
  readAvx (holding sample_files) "in.avx" false = Ret (Name game_a, Data game_a).
Proof.
  apply (readAvx_latest (holding sample_files) "in.avx" false sample_files
           [game_c] [game_b] game_a 100).
  - reflexivity.
  - reflexivity.
  - constructor; [|constructor]. exists 5.
    split; [repeat split; reflexivity | lia].
  - repeat split; reflexivity.
  - constructor; [|constructor]. exists 100.
    split; [repeat split; reflexivity | lia].
  - lia.
Defined.

(** C10: every entry [readAvx] selects carries a saved date that is not
    negative, the running maximum starting at -1 and moving only to a
    greater date; and an archive whose entries under the prefix all
    carry negative dates gives what an archive without any entry under
    the prefix gives: the empty name and the nil payload. *)
Theorem readAvx_selects_nonnegative (fs : FS) (f : string) (online : bool)
    (files : list File) :
  fs f = Ret files ->
  (forall name b,
      readAvx fs f online = Ret (name, b) ->
      (name = "" /\ b = nil_slice)
      \/ exists e t, In e files /\ matching (game_prefix online) e = true
           /\ Name e = name /\ Data e = b /\ dated e t /\ 0 <= t)
  /\ (Forall (fun x => exists t, dated x t /\ t < 0)
        (filter (fun x => matching (game_prefix online) x = true) files) ->
      readAvx fs f online = Ret ("", nil_slice)
      /\ forall (fs' : FS) (files' : list File),
           fs' f = Ret files' ->
           filter (fun x => matching (game_prefix online) x = true) files' = [] ->
           readAvx fs' f online = readAvx fs f online).
Proof.
  intros Hfs. split.
  - intros name b H. unfold readAvx in H. rewrite Hfs in H. simpl in H.
    apply readAvx_loop_selected in H.
    destruct H as [?|(e & t & ? & ? & ? & ? & ? & ?)]; [left; assumption|].
    right. exists e, t. repeat (split; [assumption|]). lia.
  - intros Hneg.
    assert (Hres : readAvx fs f online = Ret ("", nil_slice)).
    { unfold readAvx. rewrite Hfs. simpl. rewrite readAvx_loop_filter.
      apply readAvx_loop_not_later.
      - apply Forall_filter_matching.
      - eapply Forall_impl; [exact Hneg|]. simpl.
        intros x (t & Hd & Ht). exists t. split; [exact Hd | lia]. }
    split; [exact Hres|].
    intros fs' files' Hfs' Hnone. rewrite Hres.
    unfold readAvx. rewrite Hfs'. simpl.
    apply readAvx_loop_no_match. exact Hnone.
Qed.

Lemma readAvx_selects_nonnegative_witness :
  readAvx (holding stale_files) "in.avx" false = Ret ("", nil_slice).
Proof.
  refine (proj1 (proj2 (readAvx_selects_nonnegative (holding stale_files)
                          "in.avx" false stale_files eq_refl) _)).
  constructor; [|constructor]. exists (-2).
  split; [repeat split; reflexivity | lia].
Defined.

End ScanClaims.

(** ** The board flip *)

Section Flip.

Implicit Types (body : slice) (bs c : byte) (i p k fuel : nat).

Lemma is_coord_spec i p :
  is_coord i p = true
  <-> i <= p /\ ((p - i) mod 20 = 4 \/ (p - i) mod 20 = 8).
Proof.
  unfold is_coord.
  rewrite andb_true_iff, orb_true_iff, Nat.leb_le, !Nat.eqb_eq. reflexivity.
Qed.

Lemma is_coord_at4 i : is_coord i (i + 4) = true.
Proof. apply is_coord_spec. split; [lia|]. left. nat_mod. Qed.

Lemma is_coord_at8 i : is_coord i (i + 8) = true.
Proof. apply is_coord_spec. split; [lia|]. right. nat_mod. Qed.

Lemma is_coord_before i p : p < i -> is_coord i p = false.
Proof.
  intros H. apply not_true_is_false. rewrite is_coord_spec. lia.
Qed.

Lemma is_coord_next i p :
  p <> i + 4 -> p <> i + 8 -> is_coord (i + 20) p = is_coord i p.
Proof.
  intros H4 H8.
  destruct (is_coord i p) eqn:E.
  - apply is_coord_spec in E. apply is_coord_spec.
    destruct E as [Hle Hm]. split; nat_mod.
  - apply not_true_is_false. intros E'. apply is_coord_spec in E'.
    apply not_true_iff_false in E. apply E. apply is_coord_spec.
    destruct E' as [Hle Hm]. split; nat_mod.
Qed.

Lemma flipped_lookup bs i l p :
  flipped bs i l !! p
  = (fun c => if is_coord i p then flip_coord bs c else c) <$> l !! p.
Proof. unfold flipped. apply list_lookup_imap. Qed.

Lemma flipped_length bs i l : length (flipped bs i l) = length l.
Proof. unfold flipped. apply length_imap. Qed.

Lemma whole_strides_next i n : whole_strides i n -> whole_strides (i + 20) n.
Proof.
  unfold whole_strides. intros H k Hk.
  specialize (H (S k)). lia.
Qed.

Lemma whole_strides_short i n : n <= i -> whole_strides i n.
Proof. unfold whole_strides. intros H k Hk. lia. Qed.

(** A stride whose two coordinates are inside the buffer. *)
Lemma flip_stride_Ret bs i body :
  i + 8 < len body ->
  exists c4 c8,
    elems body !! (i + 4) = Some c4 /\ elems body !! (i + 8) = Some c8 /\
    flip_stride bs i body
    = Ret (Slice (<[i + 8 := flip_coord bs c8]>
                    (<[i + 4 := flip_coord bs c4]> (elems body)))
                 (spare body)).
Proof.
  intros H. unfold len in H.
  destruct (lookup_lt_is_Some_2 (elems body) (i + 4)) as [c4 E4]; [lia|].
  destruct (lookup_lt_is_Some_2 (elems body) (i + 8)) as [c8 E8]; [lia|].
  exists c4, c8. repeat (split; [assumption|]).
  unfold flip_stride.
  rewrite (index_Ret _ _ _ E4). simpl.
  rewrite assign_Ret by (unfold len; lia). simpl.
  erewrite index_Ret; [|simpl; rewrite list_lookup_insert_ne by lia; exact E8].
  simpl. rewrite assign_Ret by (unfold len; simpl; rewrite length_insert; lia).
  reflexivity.
Qed.

(** A stride that starts inside the buffer and does not fit it. *)
Lemma flip_stride_Panic bs i body :
  len body <= i + 8 ->
  exists q, flip_stride bs i body = Panic (IndexOutOfRange q (len body))
            /\ len body <= q.
Proof.
  intros H. unfold flip_stride.
  destruct (decide (i + 4 < len body)) as [H4|H4].
  - exists (i + 8). split; [|lia].
    destruct (lookup_lt_is_Some_2 (elems body) (i + 4)) as [c4 E4]; [exact H4|].
    rewrite (index_Ret _ _ _ E4). simpl.
    rewrite assign_Ret by exact H4. simpl.
    rewrite index_Panic by (unfold len; simpl; rewrite length_insert; exact H).
    simpl. unfold len. simpl. rewrite length_insert. reflexivity.
  - exists (i + 4). split; [|lia].
    rewrite index_Panic by lia. reflexivity.
Qed.

Lemma flipped_stride bs i l c4 c8 :
  l !! (i + 4) = Some c4 -> l !! (i + 8) = Some c8 ->
  flipped bs (i + 20)
    (<[i + 8 := flip_coord bs c8]> (<[i + 4 := flip_coord bs c4]> l))
  = flipped bs i l.
Proof.
  intros E4 E8. apply list_eq. intros p. rewrite !flipped_lookup.
  destruct (decide (p = i + 8)) as [->|N8].
  - rewrite list_lookup_insert_eq
      by (rewrite length_insert; apply lookup_lt_is_Some; eauto).
    rewrite E8, is_coord_at8, is_coord_before by lia. reflexivity.
  - rewrite list_lookup_insert_ne by lia.
    destruct (decide (p = i + 4)) as [->|N4].
    + rewrite list_lookup_insert_eq by (apply lookup_lt_is_Some; eauto).
      rewrite E4, is_coord_at4, is_coord_before by lia. reflexivity.
    + rewrite list_lookup_insert_ne by lia.
      rewrite is_coord_next by assumption. reflexivity.
Qed.

(** The loop, given enough iterations, on a buffer of whole strides. *)
Lemma flipBoard180_loop_Ret fuel bs i body :
  0 < fuel ->
  len body + 20 <= i + 20 * fuel ->
  whole_strides i (len body) ->
  flipBoard180_loop fuel bs i body
  = Ret (Slice (flipped bs i (elems body)) (spare body)).
Proof.
  revert i body. induction fuel as [|fuel IH]; intros i body Hpos Hfuel Hw.
  - lia.
  - simpl. destruct (decide (i < len body)) as [Hi|Hi].
    + pose proof (Hw 0) as H0. rewrite Nat.mul_0_r, Nat.add_0_r in H0.
      destruct (flip_stride_Ret bs i body (H0 Hi)) as (c4 & c8 & E4 & E8 & ->).
      simpl. rewrite IH.
      * simpl. rewrite (flipped_stride bs i _ c4 c8 E4 E8). reflexivity.
      * unfold len in *. lia.
      * unfold len in *. simpl. rewrite !length_insert. lia.
      * unfold len in *. simpl. rewrite !length_insert.
        apply whole_strides_next. exact Hw.
    + f_equal. destruct body as [l r]. simpl. f_equal.
      apply list_eq. intros p. rewrite flipped_lookup.
      destruct (l !! p) as [c|] eqn:E; [|reflexivity].
      simpl. rewrite is_coord_before; [reflexivity|].
      apply lookup_lt_Some in E. unfold len in Hi. simpl in Hi. lia.
Qed.

End Flip.

Section FlipBoard.

Implicit Types (body : slice) (bs c : byte) (i p k fuel : nat).

Lemma flipBoard180_Ret body bs :
  elems body !! 8 = Some bs ->
  whole_strides 76 (len body) ->
  flipBoard180 body = Ret (Slice (flipped bs 76 (elems body)) (spare body)).
Proof.
  intros E Hw. unfold flipBoard180. rewrite (index_Ret _ _ _ E). rewrite bind_Ret.
  apply flipBoard180_loop_Ret; [lia | lia | exact Hw].
Qed.

(** The iteration bound of [flipBoard180] is never reached. *)
Lemma flipBoard180_loop_fuel fuel bs i body :
  0 < fuel ->
  len body + 20 <= i + 20 * fuel ->
  flipBoard180_loop fuel bs i body <> OutOfFuel.
Proof.
  revert i body. induction fuel as [|fuel IH]; intros i body Hpos Hfuel; [lia|].
  simpl. destruct (decide (i < len body)) as [Hi|Hi]; [|discriminate].
  destruct (decide (i + 8 < len body)) as [H8|H8].
  - destruct (flip_stride_Ret bs i body H8) as (c4 & c8 & _ & _ & ->).
    simpl. apply IH; unfold len in *; simpl; rewrite ?length_insert; lia.
  - destruct (flip_stride_Panic bs i body) as (q & -> & _); [lia|].
    discriminate.
Qed.

Lemma flipBoard180_terminates body : flipBoard180 body <> OutOfFuel.
Proof.
  unfold flipBoard180. destruct (index body 8) as [bs| | |] eqn:E;
    try discriminate; rewrite ?bind_Ret.
  - apply flipBoard180_loop_fuel; lia.
  - unfold index in E. destruct (elems body !! 8); discriminate.
Qed.

(** A stride that starts inside the buffer and ends outside it makes
    the loop panic, whatever came before. *)
Lemma flipBoard180_loop_torn k fuel bs i body :
  0 < fuel ->
  len body + 20 <= i + 20 * fuel ->
  i + 20 * k < len body <= i + 20 * k + 8 ->
  exists q, flipBoard180_loop fuel bs i body
            = Panic (IndexOutOfRange q (len body)) /\ len body <= q.
Proof.
  revert fuel i body. induction k as [|k IH]; intros fuel i body Hpos Hfuel Hk;
    (destruct fuel as [|fuel]; [lia|]); simpl;
    (rewrite decide_True by lia).
  - destruct (flip_stride_Panic bs i body) as (q & -> & Hq); [lia|].
    exists q. split; [reflexivity | exact Hq].
  - destruct (flip_stride_Ret bs i body) as (c4 & c8 & _ & _ & ->); [lia|].
    rewrite bind_Ret.
    set (body1 := Slice _ _).
    assert (Hl : len body1 = len body)
      by (unfold len, body1; simpl; rewrite !length_insert; reflexivity).
    rewrite <- Hl. apply IH; rewrite ?Hl; lia.
Qed.

(** Either all strides are whole or some stride is torn. *)
Lemma whole_or_torn i n :
  whole_strides i n \/ exists k, i + 20 * k < n <= i + 20 * k + 8.
Proof.
  destruct (decide (n <= i)) as [H|H]; [left; apply whole_strides_short; exact H|].
  destruct (decide (n <= i + 20 * ((n - i - 1) / 20) + 8)) as [Ht|Ht].
  - right. exists ((n - i - 1) / 20). split; [nat_mod | exact Ht].
  - left. intros k Hk. nat_mod.
Qed.

Lemma flipBoard180_Ret_inv body body1 :
  flipBoard180 body = Ret body1 ->
  exists bs, elems body !! 8 = Some bs /\ whole_strides 76 (len body)
             /\ body1 = Slice (flipped bs 76 (elems body)) (spare body).
Proof.
  intros H. unfold flipBoard180, index in H.
  destruct (elems body !! 8) as [bs|] eqn:E; [|discriminate].
  rewrite bind_Ret in H. exists bs. split; [reflexivity|].
  destruct (whole_or_torn 76 (len body)) as [Hw|[k Hk]].
  - split; [exact Hw|].
    rewrite (flipBoard180_loop_Ret (S (len body)) bs 76 body) in H
      by (lia || exact Hw).
    congruence.
  - destruct (flipBoard180_loop_torn k (S (len body)) bs 76 body)
      as (q & Hq & _); [lia | lia | exact Hk |].
    congruence.
Qed.

Lemma flipped_twice bs l : flipped bs 76 (flipped bs 76 l) = l.
Proof.
  apply list_eq. intros p. rewrite !flipped_lookup.
  destruct (l !! p) as [c|]; [|reflexivity]. simpl.
  destruct (is_coord 76 p); [|reflexivity].
  rewrite flip_coord_involutive. reflexivity.
Qed.

Lemma flipBoard180_twice body body1 :
  flipBoard180 body = Ret body1 -> flipBoard180 body1 = Ret body.
Proof.
  intros H. destruct (flipBoard180_Ret_inv _ _ H) as (bs & E & Hw & ->).
  rewrite (flipBoard180_Ret _ bs).
  - simpl. rewrite flipped_twice. destruct body; reflexivity.
  - simpl. rewrite flipped_lookup, E. reflexivity.
  - unfold len. simpl. rewrite flipped_length. exact Hw.
Qed.

End FlipBoard.

(** ** The date refresh *)

Section Dates.

Implicit Types (s body : slice) (p q : nat) (bs : list byte).

Lemma poke_all_cap s q bs : cap (poke_all s q bs) = cap s.
Proof. unfold cap. rewrite poke_all_backing. apply length_inserts. Qed.

Lemma poke_all_lookup_other s q bs p :
  p < q \/ q + length bs <= p ->
  elems (poke_all s q bs) !! p = elems s !! p.
Proof.
  intros H. rewrite !lookup_elems, poke_all_len, poke_all_backing.
  destruct (decide (p < len s)); [|reflexivity].
  destruct H as [H|H].
  - apply list_lookup_inserts_lt. exact H.
  - apply list_lookup_inserts_ge. exact H.
Qed.

Lemma poke_all_lookup_in s q bs p :
  q <= p < q + length bs -> p < len s ->
  elems (poke_all s q bs) !! p = bs !! (p - q).
Proof.
  intros H Hp. rewrite lookup_elems, poke_all_len, poke_all_backing.
  rewrite decide_True by exact Hp.
  apply list_lookup_inserts; [exact H|].
  pose proof (len_le_cap s). unfold cap in *. lia.
Qed.

Lemma poke_all_spare s q bs :
  q + length bs <= len s -> spare (poke_all s q bs) = spare s.
Proof.
  intros H. rewrite !spare_backing, poke_all_len, poke_all_backing.
  apply list_eq. intros p. rewrite !lookup_drop.
  apply list_lookup_inserts_ge. lia.
Qed.

Lemma le_put_uint32_length (v : Z) : length (le_put_uint32 v) = 4.
Proof. reflexivity. Qed.

(** With room for both dates the buffer never grows: both are stored
    in the record's own memory. *)
Lemma refreshDates_Ret unix body :
  64 <= cap body ->
  refreshDates unix body
  = Ret (poke_all (poke_all body 56 (le_put_uint32 (to_uint32 (to_int32 unix))))
           60 (le_put_uint32 (to_uint32 (to_int32 unix)))).
Proof.
  intros H. unfold refreshDates, reslice.
  rewrite decide_True by lia. rewrite decide_True by lia. rewrite bind_Ret.
  unfold binary_Write_int32, Buffer_Write.
  rewrite le_put_uint32_length.
  rewrite decide_True by lia.
  rewrite poke_all_cap. rewrite decide_True by lia.
  reflexivity.
Qed.

(** Whatever the capacity beyond 56, only positions 56 to 63 can
    change. *)
Lemma refreshDates_frame unix body :
  56 <= cap body ->
  exists body',
    refreshDates unix body = Ret body' /\ len body' = len body /\
    forall p, p < 56 \/ 64 <= p -> elems body' !! p = elems body !! p.
Proof.
  intros H. unfold refreshDates, reslice.
  rewrite decide_True by lia. rewrite decide_True by lia. rewrite bind_Ret.
  unfold binary_Write_int32, Buffer_Write.
  rewrite le_put_uint32_length.
  destruct (decide (4 <= cap body - 56 - 0)) as [H1|H1].
  - rewrite poke_all_cap.
    destruct (decide (4 <= cap body - 56 - (0 + 4))) as [H2|H2].
    + eexists. split; [reflexivity|]. split.
      * rewrite !poke_all_len. reflexivity.
      * intros p Hp. rewrite !poke_all_lookup_other
          by (rewrite le_put_uint32_length; lia). reflexivity.
    + eexists. split; [reflexivity|]. split.
      * rewrite !poke_all_len. reflexivity.
      * intros p Hp. rewrite !poke_all_lookup_other
          by (rewrite le_put_uint32_length; lia). reflexivity.
  - eexists. split; [reflexivity|]. split; [reflexivity|]. reflexivity.
Qed.

End Dates.

(** ** The record patch *)

Section Patch.

Implicit Types (body : slice) (bs : byte) (p : nat).

Lemma flipToComputer_white unix body bs :
  17 <= len body ->
  elems body !! 8 = Some bs ->
  whole_strides 76 (len body) ->
  flipToComputer "w" unix body
  = refreshDates unix
      (Slice (<[16 := x0a]>
                (flipped bs 76 (<[12 := x01]> (<[4 := x01]> (elems body)))))
             (spare body)).
Proof.
  intros Hl E Hw. unfold flipToComputer.
  rewrite assign_Ret by lia. rewrite bind_Ret.
  change (String.eqb "w" "w") with true. cbv iota.
  rewrite assign_Ret by (unfold len in *; simpl; rewrite length_insert; lia).
  rewrite bind_Ret.
  rewrite (flipBoard180_Ret _ bs).
  - rewrite bind_Ret. cbn [elems spare].
    rewrite assign_Ret
      by (unfold len in *; simpl; rewrite flipped_length, !length_insert; lia).
    rewrite bind_Ret. reflexivity.
  - cbn [elems]. rewrite !list_lookup_insert_ne by lia. exact E.
  - unfold len in *. cbn [elems]. rewrite !length_insert. exact Hw.
Qed.

Lemma flipToComputer_other player unix body :
  String.eqb player "w" = false ->
  17 <= len body ->
  flipToComputer player unix body
  = refreshDates unix
      (Slice (<[16 := x0a]> (<[12 := x00]> (<[4 := x01]> (elems body))))
             (spare body)).
Proof.
  intros Hp Hl. unfold flipToComputer.
  rewrite assign_Ret by lia. rewrite bind_Ret. rewrite Hp.
  rewrite assign_Ret by (unfold len in *; simpl; rewrite length_insert; lia).
  rewrite bind_Ret. cbn [elems spare].
  rewrite assign_Ret by (unfold len in *; simpl; rewrite !length_insert; lia).
  rewrite bind_Ret. reflexivity.
Qed.

End Patch.

Section PatchClaims.

Implicit Types (body : slice) (bs c : byte) (p k : nat).

Lemma flip_coord_value bs c :
  Zb (flip_coord bs c) = ((Zb bs - Zb c + 1) mod 256)%Z.
Proof.
  rewrite Zb_flip_coord.
  pose proof (Zb_range bs). pose proof (Zb_range c).
  Z.to_euclidean_division_equations. lia.
Qed.

(** On any torn buffer the flip panics at an index beyond the end. *)
Lemma flipBoard180_torn body bs k :
  elems body !! 8 = Some bs ->
  76 + 20 * k < len body <= 76 + 20 * k + 8 ->
  exists q, flipBoard180 body = Panic (IndexOutOfRange q (len body))
            /\ len body <= q.
Proof.
  intros E Hk. unfold flipBoard180. rewrite (index_Ret _ _ _ E), bind_Ret.
  apply (flipBoard180_loop_torn k); [lia | lia | exact Hk].
Qed.

(** C1, on the code: the loop guard compares the stride start with the
    length, not the last byte the stride touches.  On a 77-byte buffer
    the stride at 76 is entered and indexing byte 80 panics; the partial
    stride is not skipped. *)
Theorem flipBoard180_torn_record :
  flipBoard180 torn_record = Panic (IndexOutOfRange 80 77)
  /\ flipToComputer "w" 0 torn_record = Panic (IndexOutOfRange 80 77).
Proof. split; vm_compute; reflexivity. Qed.

(** C9: the reflection [c -> bs - c + 1] on [uint8] is its own inverse,
    and so is the board flip: flipping the result of a flip gives the
    buffer back, coordinate bytes included. *)
Theorem flipBoard180_involutive bs c body body1 :
  flip_coord bs (flip_coord bs c) = c
  /\ (flipBoard180 body = Ret body1 -> flipBoard180 body1 = Ret body).
Proof.
  split; [apply flip_coord_involutive | apply flipBoard180_twice].
Qed.

Lemma flipBoard180_involutive_witness :
  flipBoard180
    (Slice (flipped x13 76 (elems board_record)) (spare board_record))
  = Ret board_record.
Proof.
  apply (proj2 (flipBoard180_involutive x13 x03 board_record
                  (Slice (flipped x13 76 (elems board_record))
                         (spare board_record)))).
  vm_compute. reflexivity.
Defined.

Lemma cap_Slice (l r : list byte) : cap (Slice l r) = length l + length r.
Proof. apply cap_len. Qed.

(** C6: with the flag "w", on a buffer holding its fixed fields and
    whole strides, [flipToComputer] sets byte 12 to 1 and replaces the
    coordinate [c] at offsets 4 and 8 of every stride from 76 on by
    [bs - c + 1] modulo 256, [bs] being byte 8 of the buffer as given;
    the other bytes from 76 on keep their values. *)
Theorem flipToComputer_white_flips unix body bs :
  17 <= len body ->
  56 <= cap body ->
  whole_strides 76 (len body) ->
  elems body !! 8 = Some bs ->
  exists body',
    flipToComputer "w" unix body = Ret body' /\
    len body' = len body /\
    elems body' !! 12 = Some x01 /\
    (forall k c, elems body !! (76 + 20 * k + 4) = Some c ->
                 elems body' !! (76 + 20 * k + 4) = Some (flip_coord bs c)) /\
    (forall k c, elems body !! (76 + 20 * k + 8) = Some c ->
                 elems body' !! (76 + 20 * k + 8) = Some (flip_coord bs c)) /\
    (forall p, 76 <= p -> is_coord 76 p = false ->
               elems body' !! p = elems body !! p) /\
    (forall c, Zb (flip_coord bs c) = ((Zb bs - Zb c + 1) mod 256)%Z).
Proof.
  intros Hl Hc Hw E. rewrite (flipToComputer_white unix body bs Hl E Hw).
  set (mid := Slice _ _).
  assert (Hlm : len mid = len body).
  { unfold mid, len. cbn [elems].
    rewrite length_insert, flipped_length, !length_insert. reflexivity. }
  assert (Hmid : forall p, p <> 16 ->
             elems mid !! p
             = (fun c => if is_coord 76 p then flip_coord bs c else c)
                 <$> <[12 := x01]> (<[4 := x01]> (elems body)) !! p).
  { intros p Hp. unfold mid. cbn [elems].
    rewrite list_lookup_insert_ne by lia. apply flipped_lookup. }
  destruct (refreshDates_frame unix mid) as (body' & -> & Hl' & Hfr).
  { unfold mid. rewrite cap_Slice, length_insert, flipped_length, !length_insert.
    rewrite cap_len in Hc. unfold len in Hc. exact Hc. }
  exists body'. split; [reflexivity|]. split; [congruence|].
  split; [|split; [|split; [|split]]].
  - rewrite Hfr by lia. rewrite Hmid by lia.
    rewrite list_lookup_insert_eq
      by (rewrite length_insert; unfold len in Hl; lia).
    reflexivity.
  - intros k c Ek. rewrite Hfr by lia. rewrite Hmid by lia.
    rewrite !list_lookup_insert_ne by lia.
    assert (Hco : is_coord 76 (76 + 20 * k + 4) = true)
      by (apply is_coord_spec; split; [lia|]; left; nat_mod).
    rewrite Hco, Ek. reflexivity.
  - intros k c Ek. rewrite Hfr by lia. rewrite Hmid by lia.
    rewrite !list_lookup_insert_ne by lia.
    assert (Hco : is_coord 76 (76 + 20 * k + 8) = true)
      by (apply is_coord_spec; split; [lia|]; right; nat_mod).
    rewrite Hco, Ek. reflexivity.
  - intros p Hp Hn. rewrite Hfr by lia. rewrite Hmid by lia.
    rewrite !list_lookup_insert_ne by lia. rewrite Hn.
    destruct (elems body !! p); reflexivity.
  - apply flip_coord_value.
Qed.

Lemma flipToComputer_white_flips_witness :
  exists body',
    flipToComputer "w" 1700000000 board_record = Ret body' /\
    elems body' !! 12 = Some x01 /\
    elems body' !! 80 = Some x11 /\
    elems body' !! 84 = Some x10.
Proof.
  destruct (flipToComputer_white_flips 1700000000 board_record x13)
    as (body' & H & _ & H12 & H4 & H8 & _).
  - unfold len. simpl. lia.
  - unfold cap. simpl. lia.
  - intros k Hk. unfold len in *. simpl in *. lia.
  - reflexivity.
  - exists body'. split; [exact H|]. split; [exact H12|]. split.
    + apply (H4 0 x03). reflexivity.
    + apply (H8 0 x04). reflexivity.
Defined.

End PatchClaims.

Section DateClaims.

Implicit Types (body : slice) (p : nat).

Local Abbreviation le_now unix := (le_put_uint32 (to_uint32 (to_int32 unix))).

(** Both stores of [refreshDates], on a buffer of at least 64 bytes. *)
Lemma dates_stored unix body :
  64 <= len body ->
  let body' := poke_all (poke_all body 56 (le_now unix)) 60 (le_now unix) in
  len body' = len body /\
  spare body' = spare body /\
  (forall p, 56 <= p < 60 -> elems body' !! p = le_now unix !! (p - 56)) /\
  (forall p, 60 <= p < 64 -> elems body' !! p = le_now unix !! (p - 60)) /\
  (forall p, p < 56 \/ 64 <= p -> elems body' !! p = elems body !! p).
Proof.
  intros Hl body'. unfold body'.
  split; [rewrite !poke_all_len; reflexivity|].
  split; [rewrite !poke_all_spare
            by (rewrite ?poke_all_len, le_put_uint32_length; lia);
          reflexivity|].
  split; [|split].
  - intros p Hp.
    rewrite poke_all_lookup_other by (rewrite le_put_uint32_length; lia).
    apply poke_all_lookup_in; [rewrite le_put_uint32_length|]; lia.
  - intros p Hp.
    apply poke_all_lookup_in;
      [rewrite le_put_uint32_length | rewrite poke_all_len]; lia.
  - intros p Hp.
    rewrite !poke_all_lookup_other by (rewrite le_put_uint32_length; lia).
    reflexivity.
Qed.

(** A record whose bytes 60 to 63 are the encoding of [v] is dated [v]. *)
Lemma getSavedDate_encoded body (v : Z) :
  64 <= len body ->
  (forall p, 60 <= p < 64 ->
             elems body !! p = le_put_uint32 (to_uint32 v) !! (p - 60)) ->
  getSavedDate body = Ret (to_int32 v).
Proof.
  intros Hl H.
  pose proof (le_uint32_put (to_uint32 v)) as Hput.
  assert (Hr : (0 <= to_uint32 v < 2 ^ 32)%Z)
    by (unfold to_uint32; apply Z.mod_pos_bound; lia).
  specialize (Hput Hr).
  destruct (le_put_uint32 (to_uint32 v)) as [|b0 [|b1 [|b2 [|b3 [|? ?]]]]]
    eqn:Ele; try contradiction.
  rewrite (getSavedDate_Ret body b0 b1 b2 b3).
  - rewrite Hput. rewrite to_int32_to_uint32. reflexivity.
  - apply list_eq. intros p. rewrite lookup_take, lookup_drop.
    destruct (decide (p < 4)) as [Hp|Hp].
    + unfold backing. rewrite lookup_app_l by (unfold len in Hl; lia).
      rewrite H by lia. f_equal. lia.
    + symmetry. apply lookup_ge_None_2. simpl. lia.
Qed.

Lemma flipToComputer_Ret_inv player unix body body' :
  flipToComputer player unix body = Ret body' ->
  exists mid, len mid = len body /\ refreshDates unix mid = Ret body'.
Proof.
  unfold flipToComputer. intros H.
  destruct (assign body 4 x01) as [b1| | |] eqn:E1; try discriminate.
  rewrite bind_Ret in H.
  assert (L1 : len b1 = len body).
  { unfold assign in E1. destruct (decide _); [|discriminate].
    injection E1 as <-. unfold len. simpl. apply length_insert. }
  destruct (if String.eqb player "w" then _ else _) as [b2| | |] eqn:E2;
    try discriminate.
  rewrite bind_Ret in H.
  assert (L2 : len b2 = len b1).
  { destruct (String.eqb player "w").
    - destruct (assign b1 12 x01) as [b1'| | |] eqn:E12; try discriminate.
      rewrite bind_Ret in E2.
      unfold assign in E12. destruct (decide _); [|discriminate].
      injection E12 as <-.
      apply flipBoard180_Ret_inv in E2. destruct E2 as (bs & _ & _ & ->).
      unfold len. simpl. rewrite flipped_length, length_insert. reflexivity.
    - unfold assign in E2. destruct (decide _); [|discriminate].
      injection E2 as <-. unfold len. simpl. apply length_insert. }
  destruct (assign b2 16 x0a) as [b3| | |] eqn:E3; try discriminate.
  rewrite bind_Ret in H.
  exists b3. split; [|exact H].
  unfold assign in E3. destruct (decide _); [|discriminate].
  injection E3 as <-. unfold len in *. simpl. rewrite length_insert. congruence.
Qed.

(** C7: on a buffer of at least 64 bytes, the last step of
    [flipToComputer] stores the little-endian encoding of the clock
    value, as an [int32], at bytes 56 to 59 and again at bytes 60 to 63,
    and changes nothing else; whenever [flipToComputer] returns, its
    result carries these eight bytes, and reads back as saved at that
    time.  It does return with a flag other than "w", and with "w" on
    whole strides. *)
Theorem flipToComputer_dates player unix body :
  64 <= len body ->
  (exists body',
      refreshDates unix body = Ret body' /\
      len body' = len body /\
      spare body' = spare body /\
      (forall p, 56 <= p < 60 -> elems body' !! p = le_now unix !! (p - 56)) /\
      (forall p, 60 <= p < 64 -> elems body' !! p = le_now unix !! (p - 60)) /\
      (forall p, p < 56 \/ 64 <= p -> elems body' !! p = elems body !! p)) /\
  (forall body'',
      flipToComputer player unix body = Ret body'' ->
      (forall p, 56 <= p < 60 -> elems body'' !! p = le_now unix !! (p - 56)) /\
      (forall p, 60 <= p < 64 -> elems body'' !! p = le_now unix !! (p - 60)) /\
      getSavedDate body'' = Ret (to_int32 unix)) /\
  (String.eqb player "w" = false \/ whole_strides 76 (len body) ->
   exists body'', flipToComputer player unix body = Ret body'').
Proof.
  intros Hl. split; [|split].
  - eexists. split; [apply refreshDates_Ret; pose proof (len_le_cap body); lia|].
    apply (dates_stored unix body Hl).
  - intros body'' H.
    destruct (flipToComputer_Ret_inv _ _ _ _ H) as (mid & Hlm & Hr).
    rewrite refreshDates_Ret in Hr by (pose proof (len_le_cap mid); lia).
    apply Ret_inj in Hr. subst body''.
    destruct (dates_stored unix mid ltac:(lia)) as (L & _ & H1 & H2 & _).
    split; [exact H1|]. split; [exact H2|].
    rewrite (getSavedDate_encoded _ (to_int32 unix));
      [rewrite to_int32_id by apply to_int32_range; reflexivity
      | rewrite L; lia | exact H2].
  - intros Hp. destruct (String.eqb player "w") eqn:Ep.
    + apply String.eqb_eq in Ep. subst player.
      destruct Hp as [Hp|Hw]; [discriminate|].
      destruct (lookup_lt_is_Some_2 (elems body) 8) as [bs E];
        [unfold len in Hl; lia|].
      rewrite (flipToComputer_white unix body bs) by (lia || assumption).
      eexists. apply refreshDates_Ret.
      rewrite cap_Slice, length_insert, flipped_length, !length_insert.
      unfold len in Hl. lia.
    + rewrite flipToComputer_other by (exact Ep || lia).
      eexists. apply refreshDates_Ret.
      rewrite cap_Slice, !length_insert. unfold len in Hl. lia.
Qed.

Lemma flipToComputer_dates_witness :
  exists body'',
    flipToComputer "b" 1700000000 board_record = Ret body'' /\
    getSavedDate body'' = Ret 1700000000%Z.
Proof.
  assert (Hl : 64 <= len board_record) by (unfold len; simpl; lia).
  destruct (flipToComputer_dates "b" 1700000000 board_record Hl)
    as (_ & Hany & Hret).
  destruct (Hret (or_introl eq_refl)) as (body'' & H).
  exists body''. split; [exact H|].
  apply (Hany body'' H).
Defined.

End DateClaims.

(** ** The rewrite *)

Section Rewrite.

Implicit Types (zw : Writer) (f : File) (files : list File)
  (latestBody : slice) (firstOnline : string).

Lemma to_sink_Ret_inv zw zw' :
  to_sink zw = Ret zw' ->
  sink zw' = sink zw /\ compressors zw' = compressors zw /\
  dir zw' = dir zw /\ cur zw' = cur zw /\ closed zw' = closed zw.
Proof.
  unfold to_sink. destruct (sink zw (ops zw)); [discriminate|].
  intros H. apply Ret_inj in H. subst zw'. simpl. repeat split.
Qed.

Lemma to_sink_reliable zw :
  reliable (sink zw) -> exists zw', to_sink zw = Ret zw'.
Proof.
  intros H. unfold to_sink. rewrite H. eexists. reflexivity.
Qed.

Lemma completed_snoc zw zw' o :
  dir zw' = completed zw -> cur zw' = Some o ->
  completed zw' = completed zw ++ [o].
Proof. intros Hd Hu. unfold completed at 1. rewrite Hd, Hu. reflexivity. Qed.

(** One entry, when the step returns. *)
Lemma writeAvx_entry_Ret_inv zw zw' f latestBody firstOnline :
  registered zw ->
  writeAvx_entry zw f latestBody firstOnline = Ret zw' ->
  completed zw' = completed zw ++ [rewritten latestBody firstOnline f]
  /\ registered zw' /\ sink zw' = sink zw /\ closed zw' = closed zw.
Proof.
  unfold writeAvx_entry, registered. intros Hreg H.
  unfold Open in H. destruct (OpenErr f); [discriminate|].
  rewrite bind_Ret in H. unfold Create in H.
  destruct (to_sink zw) as [z1| | |] eqn:E1; try discriminate.
  rewrite !bind_Ret in H.
  destruct (to_sink_Ret_inv _ _ E1) as (S1 & C1 & D1 & U1 & L1).
  assert (Hcomp : completed z1 = completed zw)
    by (unfold completed; rewrite D1, U1; reflexivity).
  assert (Hfor : compressor_for z1 Deflate = Flate flate_NoCompression)
    by (unfold compressor_for; rewrite C1, Hreg; reflexivity).
  rewrite Hcomp, Hfor in H.
  unfold rewritten, written_for.
  destruct (is_dir_name (Name f)).
  - (* a directory: only the empty write goes through *)
    assert (Hw : forall p z, Write {| sink := sink z1; ops := ops z1;
                                      compressors := compressors z1;
                                      dir := completed zw;
                                      cur := Some {| oName := Name f; oMethod := Store;
                                                     oComp := None; oData := [] |};
                                      closed := closed z1 |} p = Ret z ->
                             z = {| sink := sink z1; ops := ops z1;
                                    compressors := compressors z1;
                                    dir := completed zw;
                                    cur := Some {| oName := Name f; oMethod := Store;
                                                   oComp := None; oData := [] |};
                                    closed := closed z1 |}).
    { intros p z Hz. unfold Write in Hz. simpl in Hz.
      destruct p; [|discriminate]. apply Ret_inj in Hz. congruence. }
    assert (Hz : zw' = {| sink := sink z1; ops := ops z1;
                          compressors := compressors z1;
                          dir := completed zw;
                          cur := Some {| oName := Name f; oMethod := Store;
                                         oComp := None; oData := [] |};
                          closed := closed z1 |}).
    { destruct (String.eqb (Name f) firstOnline).
      - apply (Hw _ _ H).
      - unfold Copy in H.
        destruct (elems (Data f)) as [|b l] eqn:Ed.
        + rewrite bind_Ret in H. destruct (ReadErr f); [discriminate|].
          apply Ret_inj in H. congruence.
        + destruct (Write _ (b :: l)) as [z| | |] eqn:Ez; try discriminate;
            unfold Write in Ez; simpl in Ez; discriminate. }
    subst zw'. split; [apply completed_snoc; reflexivity|].
    simpl. rewrite C1, S1, L1. auto.
  - (* a file: the payload goes through the registered compressor *)
    assert (Hw : forall p z,
               Write {| sink := sink z1; ops := ops z1;
                        compressors := compressors z1;
                        dir := completed zw;
                        cur := Some {| oName := Name f; oMethod := Deflate;
                                       oComp := Some (Flate flate_NoCompression);
                                       oData := [] |};
                        closed := closed z1 |} p = Ret z ->
               dir z = completed zw /\
               cur z = Some {| oName := Name f; oMethod := Deflate;
                               oComp := Some (Flate flate_NoCompression);
                               oData := p |} /\
               compressors z = compressors z1 /\ sink z = sink z1 /\
               closed z = closed z1).
    { intros p z Hz. unfold Write in Hz. cbn [cur oComp] in Hz.
      match type of Hz with
      | context [to_sink ?w] => destruct (to_sink w) as [z2| | |] eqn:E2
      end; try discriminate.
      rewrite bind_Ret in Hz. apply Ret_inj in Hz. subst z.
      destruct (to_sink_Ret_inv _ _ E2) as (S2 & C2 & D2 & U2 & L2).
      simpl in *. rewrite S2, C2, D2, L2. repeat split. }
    assert (Hz : dir zw' = completed zw /\
                 cur zw' = Some {| oName := Name f; oMethod := Deflate;
                                   oComp := Some (Flate flate_NoCompression);
                                   oData := if String.eqb (Name f) firstOnline
                                            then elems latestBody
                                            else elems (Data f) |} /\
                 compressors zw' = compressors z1 /\ sink zw' = sink z1 /\
                 closed zw' = closed z1).
    { destruct (String.eqb (Name f) firstOnline).
      - apply (Hw _ _ H).
      - unfold Copy in H.
        destruct (elems (Data f)) as [|b l] eqn:Ed.
        + rewrite bind_Ret in H. destruct (ReadErr f); [discriminate|].
          apply Ret_inj in H. subst zw'. simpl. repeat split.
        + destruct (Write _ (b :: l)) as [z| | |] eqn:Ez; try discriminate.
          rewrite bind_Ret in H. destruct (ReadErr f); [discriminate|].
          apply Ret_inj in H. subst zw'. apply (Hw _ _ Ez). }
    destruct Hz as (Hd & Hu & Hc & Hs & Hl).
    split; [apply completed_snoc; assumption|].
    rewrite Hc, Hs, Hl, C1, S1, L1. auto.
Qed.

(** A directory entry goes through only with nothing to write. *)
Lemma writeAvx_entry_Ret_dir zw zw' f latestBody firstOnline :
  writeAvx_entry zw f latestBody firstOnline = Ret zw' ->
  is_dir_name (Name f) = true ->
  written_for latestBody firstOnline f = [].
Proof.
  unfold writeAvx_entry, written_for. intros H Hd.
  unfold Open in H. destruct (OpenErr f); [discriminate|].
  rewrite bind_Ret in H. unfold Create in H.
  destruct (to_sink zw) as [z1| | |]; try discriminate.
  rewrite !bind_Ret in H. rewrite Hd in H.
  destruct (String.eqb (Name f) firstOnline).
  - unfold Write in H. simpl in H.
    destruct (elems latestBody); [reflexivity | discriminate].
  - unfold Copy in H.
    destruct (elems (Data f)) as [|b l]; [reflexivity|].
    unfold Write in H. simpl in H. discriminate.
Qed.

Lemma rewritten_name latestBody firstOnline f :
  oName (rewritten latestBody firstOnline f) = Name f.
Proof. unfold rewritten. destruct (is_dir_name (Name f)); reflexivity. Qed.

(** One entry, with a reliable sink and a readable source. *)
Lemma writeAvx_entry_Ret zw f latestBody firstOnline :
  reliable (sink zw) ->
  readable f ->
  (is_dir_name (Name f) = true -> written_for latestBody firstOnline f = []) ->
  exists zw', writeAvx_entry zw f latestBody firstOnline = Ret zw'.
Proof.
  unfold writeAvx_entry, written_for, readable. intros Hs [Ho Hr] Hd.
  unfold Open. rewrite Ho, bind_Ret. unfold Create.
  destruct (to_sink_reliable zw Hs) as (z1 & E1). rewrite E1, !bind_Ret.
  destruct (to_sink_Ret_inv _ _ E1) as (S1 & _).
  assert (Hs1 : reliable (sink z1)) by (rewrite S1; exact Hs).
  destruct (is_dir_name (Name f)).
  - specialize (Hd eq_refl).
    destruct (String.eqb (Name f) firstOnline).
    + rewrite Hd. eexists. reflexivity.
    + unfold Copy. rewrite Hd, bind_Ret, Hr. eexists. reflexivity.
  - assert (Hw : forall p, exists z,
               Write {| sink := sink z1; ops := ops z1;
                        compressors := compressors z1;
                        dir := completed z1;
                        cur := Some {| oName := Name f; oMethod := Deflate;
                                       oComp := Some (compressor_for z1 Deflate);
                                       oData := [] |};
                        closed := closed z1 |} p = Ret z).
    { intros p. unfold Write. cbn [cur oComp].
      match goal with
      | |- context [to_sink ?w] =>
          destruct (to_sink_reliable w Hs1) as (z2 & ->)
      end.
      rewrite bind_Ret. eexists. reflexivity. }
    destruct (String.eqb (Name f) firstOnline); [apply Hw|].
    unfold Copy. destruct (elems (Data f)) as [|b l].
    + rewrite bind_Ret, Hr. eexists. reflexivity.
    + destruct (Hw (b :: l)) as (z & ->). rewrite bind_Ret, Hr.
      eexists. reflexivity.
Qed.

Lemma writeAvx_loop_Ret_inv files zw zw' latestBody firstOnline :
  registered zw ->
  writeAvx_loop zw files latestBody firstOnline = Ret zw' ->
  completed zw' = completed zw ++ map (rewritten latestBody firstOnline) files
  /\ registered zw' /\ sink zw' = sink zw /\ closed zw' = closed zw
  /\ Forall (fun f => is_dir_name (Name f) = true ->
                      written_for latestBody firstOnline f = []) files.
Proof.
  revert zw. induction files as [|f files IH]; intros zw Hreg H.
  - simpl in H. apply Ret_inj in H. subst zw'. simpl.
    rewrite app_nil_r. repeat split; try assumption. constructor.
  - simpl in H.
    destruct (writeAvx_entry zw f latestBody firstOnline) as [z1| | |] eqn:E1;
      try discriminate.
    rewrite bind_Ret in H.
    destruct (writeAvx_entry_Ret_inv _ _ _ _ _ Hreg E1) as (C1 & R1 & S1 & L1).
    destruct (IH z1 R1 H) as (C2 & R2 & S2 & L2 & F2).
    split; [rewrite C2, C1, <- app_assoc; reflexivity|].
    split; [exact R2|]. split; [congruence|]. split; [congruence|].
    constructor; [|exact F2].
    apply (writeAvx_entry_Ret_dir _ _ _ _ _ E1).
Qed.

Lemma writeAvx_loop_Ret files zw latestBody firstOnline :
  registered zw ->
  reliable (sink zw) ->
  Forall readable files ->
  Forall (fun f => is_dir_name (Name f) = true ->
                   written_for latestBody firstOnline f = []) files ->
  exists zw', writeAvx_loop zw files latestBody firstOnline = Ret zw'.
Proof.
  revert zw. induction files as [|f files IH]; intros zw Hreg Hs Hr Hd.
  - eexists. reflexivity.
  - inversion Hr as [|? ? Hrf Hr']; subst.
    inversion Hd as [|? ? Hdf Hd']; subst.
    destruct (writeAvx_entry_Ret zw f latestBody firstOnline Hs Hrf Hdf)
      as (z1 & E1).
    simpl. rewrite E1, bind_Ret.
    destruct (writeAvx_entry_Ret_inv _ _ _ _ _ Hreg E1) as (_ & R1 & S1 & _).
    apply IH; try assumption. rewrite S1. exact Hs.
Qed.

(** What a successful [writeAvx] leaves behind. *)
Lemma writeAvx_Ret_inv fs w avxName latestBody firstOnline files zw :
  fs avxName = Ret files ->
  writeAvx fs w avxName latestBody firstOnline = Ret zw ->
  dir zw = map (rewritten latestBody firstOnline) files
  /\ cur zw = None /\ closed zw = true
  /\ Forall (fun f => is_dir_name (Name f) = true ->
                      written_for latestBody firstOnline f = []) files.
Proof.
  intros Hfs H. unfold writeAvx in H. rewrite Hfs, bind_Ret in H.
  destruct (writeAvx_loop _ files latestBody firstOnline) as [z1| | |] eqn:E1;
    try discriminate.
  rewrite bind_Ret in H.
  apply writeAvx_loop_Ret_inv in E1; [|reflexivity].
  destruct E1 as (C1 & _ & _ & _ & F1).
  unfold Close in H. destruct (to_sink z1) as [z2| | |] eqn:E2; try discriminate.
  rewrite bind_Ret in H. apply Ret_inj in H. subst zw. simpl.
  destruct (to_sink_Ret_inv _ _ E2) as (_ & _ & D2 & U2 & _).
  repeat split; [|exact F1].
  unfold completed in *. rewrite D2, U2, C1. reflexivity.
Qed.

Lemma writeAvx_Ret fs w avxName latestBody firstOnline files :
  fs avxName = Ret files ->
  reliable w ->
  Forall readable files ->
  Forall (fun f => is_dir_name (Name f) = true ->
                   written_for latestBody firstOnline f = []) files ->
  exists zw, writeAvx fs w avxName latestBody firstOnline = Ret zw.
Proof.
  intros Hfs Hw Hr Hd. unfold writeAvx. rewrite Hfs, bind_Ret.
  destruct (writeAvx_loop_Ret files
              (RegisterCompressor (NewWriter w) Deflate (Flate flate_NoCompression))
              latestBody firstOnline) as (z1 & E1);
    [reflexivity | exact Hw | exact Hr | exact Hd |].
  rewrite E1, bind_Ret.
  apply writeAvx_loop_Ret_inv in E1; [|reflexivity].
  destruct E1 as (_ & _ & S1 & _).
  unfold Close. destruct (to_sink_reliable z1) as (z2 & ->);
    [rewrite S1; exact Hw|].
  rewrite bind_Ret. eexists. reflexivity.
Qed.

End Rewrite.

Section RewriteClaims.

Implicit Types (fs : FS) (w : Sink) (files : list File)
  (latestBody : slice) (avxName firstOnline : string).

(** C5: the archive [writeAvx] completes holds the reference archive's
    entry names, in the reference's order, none added and none dropped;
    the entry named [firstOnline] has the substitute bytes as payload,
    every other entry the payload of the reference entry.  And
    [writeAvx] does complete when the sink takes every write, the
    reference entries open and read, and no directory entry is given
    bytes. *)
Theorem writeAvx_preserves_entries fs w avxName latestBody firstOnline files :
  fs avxName = Ret files ->
  (forall zw,
      writeAvx fs w avxName latestBody firstOnline = Ret zw ->
      closed zw = true /\ cur zw = None /\
      map oName (dir zw) = map Name files /\
      Forall2 (fun f o =>
                 oName o = Name f /\
                 oData o = if String.eqb (Name f) firstOnline
                           then elems latestBody
                           else elems (Data f))
              files (dir zw)) /\
  (reliable w ->
   Forall readable files ->
   Forall (fun f => is_dir_name (Name f) = true ->
                    written_for latestBody firstOnline f = []) files ->
   exists zw, writeAvx fs w avxName latestBody firstOnline = Ret zw).
Proof.
  intros Hfs. split.
  - intros zw H.
    destruct (writeAvx_Ret_inv _ _ _ _ _ _ _ Hfs H) as (Hd & Hc & Hcl & Hdir).
    split; [exact Hcl|]. split; [exact Hc|]. rewrite Hd. split.
    + rewrite map_map. apply map_ext. intros f. apply rewritten_name.
    + clear Hd H Hfs. induction files as [|f files IH]; [constructor|].
      inversion Hdir as [|? ? Hf Hdir']; subst.
      simpl. constructor; [|apply IH; exact Hdir'].
      split; [apply rewritten_name|].
      unfold rewritten. destruct (is_dir_name (Name f)); [|reflexivity].
      simpl. symmetry. apply (Hf eq_refl).
  - apply writeAvx_Ret. exact Hfs.
Qed.

Lemma writeAvx_preserves_entries_witness :
  exists zw,
    writeAvx (holding sample_files) quiet "in.avx" board_record
      "Container/Documents/game-online/x.dat" = Ret zw /\
    map oName (dir zw) = map Name sample_files.
Proof.
  destruct (writeAvx_preserves_entries (holding sample_files) quiet "in.avx"
              board_record "Container/Documents/game-online/x.dat"
              sample_files eq_refl) as (Hinv & Hret).
  destruct Hret as (zw & H).
  - intros k. reflexivity.
  - repeat constructor.
  - repeat constructor; intros Hd; vm_compute in Hd; try discriminate Hd;
      reflexivity.
  - exists zw. split; [exact H|]. apply (Hinv zw H).
Defined.



End RewriteClaims.

(** ** The whole run *)

(** On the sample archive, with the flag "w": the latest game is patched
    and put in place of the latest online game, under the same names. *)
Example main_sample :
  exists zw patched,
    main (holding sample_files) quiet "in.avx" "w" 1700000000 = Ret zw /\
    flipToComputer "w" 1700000000 (Data game_a) = Ret patched /\
    closed zw = true /\
    map oName (dir zw) = map Name sample_files /\
    map oData (dir zw)
    = [[]; elems (Data game_c); elems (Data game_a); elems (Data game_b);
       elems patched].
Proof.
  eexists. eexists.
  split; [vm_compute; reflexivity|].
  split; [vm_compute; reflexivity|].
  vm_compute. auto.
Qed.

(** * Further properties of the scan *)

Section ScanMore.

Local Open Scope Z_scope.

Implicit Types (files ms : list File) (f e : File) (prefix latest : string)
  (latestBody : slice) (latestDate t : Z).

Lemma dated_functional f t t' : dated f t -> dated f t' -> t = t'.
Proof. unfold dated. intros (_ & _ & H) (_ & _ & H'). congruence. Qed.

(** A matching entry that cannot be opened or read ends the loop with its
    error, once the entries before it have been dated. *)
Lemma readAvx_loop_failure prefix l1 e l2 err latest latestBody latestDate :
  Forall (fun f => matching prefix f = true) (l1 ++ e :: l2) ->
  Forall (fun f => exists t, dated f t) l1 ->
  OpenErr e = Some err \/ (OpenErr e = None /\ ReadErr e = Some err) ->
  readAvx_loop prefix (l1 ++ e :: l2) latest latestBody latestDate = Fail err.
Proof.
  revert latest latestBody latestDate.
  induction l1 as [|f l1 IH]; intros latest latestBody latestDate Hm H1 He.
  - simpl in Hm. inversion Hm as [|? ? Hf _]; subst.
    unfold matching in Hf. apply andb_true_iff in Hf. destruct Hf as [Hp Hn].
    apply negb_true_iff in Hn. simpl. rewrite Hp, Hn. simpl.
    unfold Open, ReadAll.
    destruct He as [Ho|[Ho Hr]]; rewrite Ho; simpl; [reflexivity|].
    rewrite Hr. reflexivity.
  - rewrite <- app_comm_cons in *.
    inversion Hm as [|? ? Hf Hm']; subst.
    inversion H1 as [|? ? (t & Hft) H1']; subst.
    rewrite (readAvx_loop_dated _ _ _ _ _ _ t Hf Hft).
    destruct (t >? latestDate); apply IH; assumption.
Qed.

(** Whatever the loop returns, all matching entries were dated, and the
    result is the initial pair, no date exceeding the initial maximum, or
    the first entry carrying the greatest date. *)
Lemma readAvx_loop_Ret_inv prefix ms latest latestBody latestDate name b :
  Forall (fun f => matching prefix f = true) ms ->
  readAvx_loop prefix ms latest latestBody latestDate = Ret (name, b) ->
  Forall (fun f => exists t, dated f t) ms /\
  ((name = latest /\ b = latestBody /\
    Forall (fun f => forall t, dated f t -> t <= latestDate) ms)
   \/ exists l1 e l2 te,
        ms = l1 ++ e :: l2 /\ name = Name e /\ b = Data e /\ dated e te /\
        latestDate < te /\
        Forall (fun f => forall t, dated f t -> t < te) l1 /\
        Forall (fun f => forall t, dated f t -> t <= te) l2).
Proof.
  revert latest latestBody latestDate.
  induction ms as [|f ms IH]; intros latest latestBody latestDate Hm H.
  - simpl in H. apply Ret_inj in H. injection H as <- <-.
    split; [constructor|]. left. repeat (split; [reflexivity|]). constructor.
  - inversion Hm as [|? ? Hf Hm']; subst.
    assert (Hd : exists t, dated f t).
    { pose proof Hf as Hf'. unfold matching in Hf'.
      apply andb_true_iff in Hf'. destruct Hf' as [Hp Hn].
      apply negb_true_iff in Hn. simpl in H. rewrite Hp, Hn in H. simpl in H.
      unfold Open, ReadAll in H.
      destruct (OpenErr f) eqn:Ho; [discriminate|]. simpl in H.
      destruct (ReadErr f) eqn:Hr; [discriminate|]. simpl in H.
      destruct (getSavedDate (Data f)) as [t| | |] eqn:Hg; try discriminate.
      exists t. unfold dated. auto. }
    destruct Hd as (t & Hft).
    rewrite (readAvx_loop_dated _ _ _ _ _ _ t Hf Hft) in H.
    destruct (t >? latestDate) eqn:Hgt.
    + rewrite Z.gtb_ltb in Hgt. apply Z.ltb_lt in Hgt.
      destruct (IH _ _ _ Hm' H) as (Hall & Hres).
      split; [constructor; [exists t; exact Hft | exact Hall]|].
      right. destruct Hres as [(-> & -> & Hle)|(l1 & e & l2 & te & -> & -> & -> & He & Hlt & H1 & H2)].
      * exists [], f, ms, t. repeat (split; [reflexivity|]).
        split; [exact Hft|]. split; [exact Hgt|].
        split; [constructor | exact Hle].
      * exists (f :: l1), e, l2, te. repeat (split; [reflexivity|]).
        split; [exact He|]. split; [lia|]. split; [|exact H2].
        constructor; [|exact H1]. intros t' Ht'.
        rewrite (dated_functional _ _ _ Ht' Hft). exact Hlt.
    + rewrite Z.gtb_ltb in Hgt. apply Z.ltb_ge in Hgt.
      destruct (IH _ _ _ Hm' H) as (Hall & Hres).
      split; [constructor; [exists t; exact Hft | exact Hall]|].
      destruct Hres as [(-> & -> & Hle)|(l1 & e & l2 & te & -> & -> & -> & He & Hlt & H1 & H2)].
      * left. repeat (split; [reflexivity|]).
        constructor; [|exact Hle]. intros t' Ht'.
        rewrite (dated_functional _ _ _ Ht' Hft). exact Hgt.
      * right. exists (f :: l1), e, l2, te. repeat (split; [reflexivity|]).
        split; [exact He|]. split; [exact Hlt|]. split; [|exact H2].
        constructor; [|exact H1]. intros t' Ht'.
        rewrite (dated_functional _ _ _ Ht' Hft). lia.
Qed.

(** No name lies under both game directories. *)
Lemma game_prefixes_disjoint (name : string) :
  HasPrefix name (game_prefix false) = true ->
  HasPrefix name (game_prefix true) = true -> False.
Proof.
  unfold HasPrefix, game_prefix. intros H1 H2.
  repeat (destruct name as [|? name];
          cbn [String.prefix] in H1, H2; [discriminate|];
          match type of H1 with
          | context [ascii_dec ?a ?b] =>
              destruct (ascii_dec a b) as [<-|]; [|discriminate]
          end;
          try (vm_compute in H2; discriminate)).
Qed.

End ScanMore.

Section ScanExtras.

Local Open Scope Z_scope.

(** X1: [getSavedDate] panics exactly when the capacity of the buffer is
    below 64; otherwise it returns the little-endian value of bytes 60 to
    63 of the backing array, brought into the [int32] range, whether or
    not the length reaches them.  It never returns an error. *)
Theorem getSavedDate_outcome (body : slice) :
  (cap body < 64 -> getSavedDate body = Panic (SliceOutOfRange 64 (cap body)))%nat
  /\ ((64 <= cap body)%nat ->
      exists b0 b1 b2 b3,
        take 4 (drop 60 (backing body)) = [b0; b1; b2; b3] /\
        getSavedDate body
        = Ret (to_int32 (Zb b0 + Zb b1 * 2 ^ 8 + Zb b2 * 2 ^ 16 + Zb b3 * 2 ^ 24)))
  /\ (forall err, getSavedDate body <> Fail err)
  /\ (forall t, getSavedDate body = Ret t -> is_int32 t).
Proof.
  split; [apply getSavedDate_Panic|]. split; [|split].
  - intros Hc. destruct (four_bytes (backing body)) as (b0 & b1 & b2 & b3 & E);
      [exact Hc|].
    exists b0, b1, b2, b3. split; [exact E|].
    rewrite <- le_uint32_value. apply getSavedDate_Ret. exact E.
  - apply getSavedDate_never_fails.
  - intros t H. destruct (getSavedDate_cases body) as [[_ H']|[_ (t' & H' & Ht)]];
      congruence.
Qed.

(** X2: a scan depends on nothing but the entries under its prefix: two
    archives with the same non-directory entries under the prefix, in the
    same order, give the same result, whatever else they hold and whether
    or not that can be read. *)
Theorem readAvx_only_matching (fs fs' : FS) (f : string) (online : bool)
    (files files' : list File) :
  fs f = Ret files ->
  fs' f = Ret files' ->
  filter (fun x => matching (game_prefix online) x = true) files
  = filter (fun x => matching (game_prefix online) x = true) files' ->
  readAvx fs f online = readAvx fs' f online.
Proof.
  intros Hfs Hfs' Heq. unfold readAvx. rewrite Hfs, Hfs'. simpl.
  rewrite (readAvx_loop_filter _ files), (readAvx_loop_filter _ files'), Heq.
  reflexivity.
Qed.

Lemma readAvx_only_matching_witness :
  readAvx (holding sample_files) "in.avx" false
  = readAvx (holding (prefs_locked :: sample_files)) "in.avx" false.
Proof.
  apply (readAvx_only_matching (holding sample_files)
           (holding (prefs_locked :: sample_files)) "in.avx" false
           sample_files (prefs_locked :: sample_files));
    reflexivity.
Defined.

(** X3: the first entry under the prefix that cannot be opened, or whose
    payload cannot be read, makes the scan return that error, the entries
    under the prefix before it having been read and dated; what comes
    after it is not looked at. *)
Theorem readAvx_first_failure (fs : FS) (f : string) (online : bool)
    (files l1 l2 : list File) (e : File) (err : error) :
  fs f = Ret files ->
  filter (fun x => matching (game_prefix online) x = true) files
  = l1 ++ e :: l2 ->
  Forall (fun x => exists t, dated x t) l1 ->
  OpenErr e = Some err \/ (OpenErr e = None /\ ReadErr e = Some err) ->
  readAvx fs f online = Fail err.
Proof.
  intros Hfs Hsplit H1 He. unfold readAvx. rewrite Hfs. simpl.
  rewrite readAvx_loop_filter, Hsplit.
  apply readAvx_loop_failure; try assumption.
  rewrite <- Hsplit. apply Forall_filter_matching.
Qed.

Lemma readAvx_first_failure_witness :
  readAvx (holding [docs_dir; game_c; game_corrupt; game_short]) "in.avx" false
  = Fail (ErrIO "checksum error").
Proof.
  apply (readAvx_first_failure (holding [docs_dir; game_c; game_corrupt; game_short])
           "in.avx" false [docs_dir; game_c; game_corrupt; game_short]
           [game_c] [game_short] game_corrupt (ErrIO "checksum error")).
  - reflexivity.
  - reflexivity.
  - constructor; [|constructor]. exists 5. repeat split; reflexivity.
  - right. split; reflexivity.
Defined.

(** X4: whenever a scan returns, every entry under the prefix was read
    and dated, and the result is either the empty name with the nil
    payload, all dates being negative, or the first of the entries that
    carry the greatest date, that date not being negative. *)
Theorem readAvx_Ret_first_latest (fs : FS) (f : string) (online : bool)
    (files : list File) (name : string) (b : slice) :
  fs f = Ret files ->
  readAvx fs f online = Ret (name, b) ->
  Forall (fun x => exists t, dated x t)
    (filter (fun x => matching (game_prefix online) x = true) files) /\
  ((name = "" /\ b = nil_slice /\
    Forall (fun x => forall t, dated x t -> t < 0)
      (filter (fun x => matching (game_prefix online) x = true) files))
   \/ exists l1 e l2 te,
        filter (fun x => matching (game_prefix online) x = true) files
        = l1 ++ e :: l2 /\
        name = Name e /\ b = Data e /\ dated e te /\ 0 <= te /\
        Forall (fun x => forall t, dated x t -> t < te) l1 /\
        Forall (fun x => forall t, dated x t -> t <= te) l2).
Proof.
  intros Hfs H. unfold readAvx in H. rewrite Hfs in H. simpl in H.
  rewrite readAvx_loop_filter in H.
  apply readAvx_loop_Ret_inv in H; [|apply Forall_filter_matching].
  destruct H as (Hall & Hres). split; [exact Hall|].
  destruct Hres as [(-> & -> & Hle)|(l1 & e & l2 & te & E & -> & -> & He & Hlt & H1 & H2)].
  - left. repeat (split; [reflexivity|]).
    eapply Forall_impl; [exact Hle|]. simpl. intros x Hx t Ht.
    specialize (Hx t Ht). lia.
  - right. exists l1, e, l2, te. split; [exact E|].
    repeat (split; [reflexivity|]). split; [exact He|]. split; [lia|].
    split; assumption.
Qed.

Lemma readAvx_Ret_first_latest_witness :
  Forall (fun x => exists t, dated x t)
    (filter (fun x => matching (game_prefix false) x = true) sample_files).
Proof.
  apply (readAvx_Ret_first_latest (holding sample_files) "in.avx" false
           sample_files (Name game_a) (Data game_a)); reflexivity.
Defined.

(** X5: a name a scan selects lies under the scan's prefix and does not
    end in a slash; so the scan of [game/] and the scan of [game-online/]
    never select the same name. *)
Theorem readAvx_scans_disjoint (fs : FS) (f : string) (files : list File)
    (online : bool) (name name' : string) (b b' : slice) :
  fs f = Ret files ->
  readAvx fs f online = Ret (name, b) ->
  name <> "" ->
  HasPrefix name (game_prefix online) = true /\
  is_dir_name name = false /\
  (readAvx fs f (negb online) = Ret (name', b') -> name' <> name).
Proof.
  intros Hfs H Hne.
  assert (Hsel : forall o n c,
             readAvx fs f o = Ret (n, c) -> n <> "" ->
             HasPrefix n (game_prefix o) = true /\ is_dir_name n = false).
  { intros o n c Hr Hn. unfold readAvx in Hr. rewrite Hfs in Hr. simpl in Hr.
    apply readAvx_loop_selected in Hr.
    destruct Hr as [[-> _]|(e & t & _ & Hm & <- & _)]; [contradiction|].
    unfold matching, IsDir in Hm. apply andb_true_iff in Hm.
    destruct Hm as [Hp Hd]. apply negb_true_iff, orb_false_iff in Hd.
    split; [exact Hp | apply Hd]. }
  destruct (Hsel _ _ _ H Hne) as (Hp & Hd).
  split; [exact Hp|]. split; [exact Hd|].
  intros H' ->. destruct (Hsel _ _ _ H' Hne) as (Hp' & _).
  destruct online; simpl in Hp'.
  - apply (game_prefixes_disjoint name Hp' Hp).
  - apply (game_prefixes_disjoint name Hp Hp').
Qed.

Lemma readAvx_scans_disjoint_witness :
  HasPrefix (Name game_a) (game_prefix false) = true.
Proof.
  apply (readAvx_scans_disjoint (holding sample_files) "in.avx" sample_files
           false (Name game_a) (Name online_x) (Data game_a) (Data online_x)
           eq_refl eq_refl).
  discriminate.
Defined.

End ScanExtras.

(** * Further properties of the record patch *)

Section PatchMore.

Implicit Types (body : slice) (bs c : byte) (p k : nat).

Lemma whole_strides_iff (n : nat) :
  whole_strides 76 n <-> n <= 76 \/ 8 <= (n - 77) mod 20.
Proof.
  split.
  - intros H. destruct (decide (n <= 76)) as [Hn|Hn]; [left; exact Hn|].
    right. specialize (H ((n - 77) / 20)).
    assert (Hk : 76 + 20 * ((n - 77) / 20) < n) by nat_mod.
    specialize (H Hk). nat_mod.
  - intros H k Hk. nat_mod.
Qed.

Lemma refreshDates_Panic unix body :
  cap body < 56 -> refreshDates unix body = Panic (SliceOutOfRange 56 (cap body)).
Proof.
  intros H. unfold refreshDates, reslice. rewrite decide_False by lia.
  reflexivity.
Qed.

Lemma assign_len body p c body' :
  assign body p c = Ret body' ->
  p < len body /\ body' = Slice (<[p := c]> (elems body)) (spare body).
Proof.
  unfold assign. destruct (decide (p < len body)) as [H|H]; [|discriminate].
  intros E. apply Ret_inj in E. auto.
Qed.

(** What a return of [flipToComputer] tells about its argument. *)
Lemma flipToComputer_Ret_shape player unix body body' :
  flipToComputer player unix body = Ret body' ->
  17 <= len body /\
  (String.eqb player "w" = false
   \/ (player = "w" /\ exists bs, elems body !! 8 = Some bs
                                   /\ whole_strides 76 (len body))).
Proof.
  unfold flipToComputer. intros H.
  destruct (assign body 4 x01) as [b1| | |] eqn:E1; try discriminate.
  rewrite bind_Ret in H. apply assign_len in E1. destruct E1 as [L1 ->].
  destruct (String.eqb player "w") eqn:Ep.
  - apply String.eqb_eq in Ep. subst player.
    destruct (assign _ 12 x01) as [b2| | |] eqn:E2; try discriminate.
    rewrite bind_Ret in H. apply assign_len in E2. destruct E2 as [L2 ->].
    cbn [elems spare] in H.
    destruct (flipBoard180 _) as [b3| | |] eqn:E3; try discriminate.
    rewrite bind_Ret in H.
    apply flipBoard180_Ret_inv in E3. destruct E3 as (bs & E8 & Hw & ->).
    cbn [elems spare] in *.
    destruct (assign _ 16 x0a) as [b4| | |] eqn:E4; try discriminate.
    apply assign_len in E4. destruct E4 as [L4 _].
    unfold len in *. cbn [elems] in *.
    rewrite ?flipped_length, ?length_insert in *.
    split; [lia|]. right. split; [reflexivity|]. exists bs.
    rewrite !list_lookup_insert_ne in E8 by lia. auto.
  - destruct (assign _ 12 x00) as [b2| | |] eqn:E2; try discriminate.
    rewrite bind_Ret in H. apply assign_len in E2. destruct E2 as [L2 ->].
    cbn [elems spare] in H.
    destruct (assign _ 16 x0a) as [b4| | |] eqn:E4; try discriminate.
    apply assign_len in E4. destruct E4 as [L4 _].
    unfold len in *. cbn [elems] in *. rewrite ?length_insert in *.
    split; [lia|]. left. reflexivity.
Qed.

Lemma fmap_keep (x : option byte) (f : byte -> byte) :
  (forall c, f c = c) -> f <$> x = x.
Proof. intros H. destruct x; simpl; [rewrite H|]; reflexivity. Qed.

End PatchMore.

Section PatchExtras.

Implicit Types (body : slice) (bs c : byte) (p k : nat).

(** X6: [flipBoard180] returns exactly on the buffers that hold byte 8
    and no torn stride, that is of length at least 9 and either at most
    76 or with the last stride reaching its byte 8; on every other buffer
    it panics on an index at or beyond the length. *)
Theorem flipBoard180_returns_iff body :
  ((exists body', flipBoard180 body = Ret body')
   <-> 9 <= len body /\ (len body <= 76 \/ 8 <= (len body - 77) mod 20))
  /\ ((forall body', flipBoard180 body <> Ret body') ->
      exists q, flipBoard180 body = Panic (IndexOutOfRange q (len body))
                /\ len body <= q).
Proof.
  split; [split|].
  - intros (body' & H). apply flipBoard180_Ret_inv in H.
    destruct H as (bs & E & Hw & _). apply lookup_lt_Some in E.
    split; [unfold len; lia | apply whole_strides_iff; exact Hw].
  - intros (Hl & Hw). apply whole_strides_iff in Hw.
    destruct (lookup_lt_is_Some_2 (elems body) 8) as [bs E];
      [unfold len in Hl; lia|].
    eexists. apply (flipBoard180_Ret body bs E Hw).
  - intros Hno. destruct (decide (9 <= len body)) as [Hl|Hl].
    + destruct (lookup_lt_is_Some_2 (elems body) 8) as [bs E];
        [unfold len in Hl; lia|].
      destruct (whole_or_torn 76 (len body)) as [Hw|(k & Hk)].
      * exfalso. apply (Hno _ (flipBoard180_Ret body bs E Hw)).
      * apply (flipBoard180_torn body bs k E Hk).
    + exists 8. split; [|lia]. unfold flipBoard180.
      rewrite index_Panic by lia. reflexivity.
Qed.

(** X7: when [flipBoard180] returns, the buffer keeps its length and its
    capacity, and every byte that is not a stride coordinate, the whole
    header below 76 included, keeps its value. *)
Theorem flipBoard180_frame body body' :
  flipBoard180 body = Ret body' ->
  len body' = len body /\ spare body' = spare body /\
  (forall p, is_coord 76 p = false -> elems body' !! p = elems body !! p) /\
  (forall p, p < 76 -> elems body' !! p = elems body !! p).
Proof.
  intros H. apply flipBoard180_Ret_inv in H. destruct H as (bs & _ & _ & ->).
  assert (Hk : forall p, is_coord 76 p = false ->
                         flipped bs 76 (elems body) !! p = elems body !! p).
  { intros p Hp. rewrite flipped_lookup, Hp. apply fmap_keep. reflexivity. }
  split; [unfold len; simpl; apply flipped_length|].
  split; [reflexivity|]. split; [exact Hk|].
  intros p Hp. apply Hk. apply is_coord_before. exact Hp.
Qed.

Lemma flipBoard180_frame_witness :
  len (Slice (flipped x13 76 (elems board_record)) (spare board_record))
  = len board_record.
Proof.
  apply (flipBoard180_frame board_record
           (Slice (flipped x13 76 (elems board_record)) (spare board_record))).
  vm_compute. reflexivity.
Defined.

(** X8: for a coordinate on the board, from 1 to the board size, the
    flip does not wrap: the result is [bs + 1 - c], again from 1 to the
    board size. *)
Theorem flip_coord_on_board bs c :
  (1 <= Zb c <= Zb bs)%Z ->
  (Zb (flip_coord bs c) = Zb bs + 1 - Zb c
   /\ 1 <= Zb (flip_coord bs c) <= Zb bs)%Z.
Proof.
  intros H. rewrite Zb_flip_coord.
  pose proof (Zb_range bs). pose proof (Zb_range c).
  rewrite (Z.mod_small (Zb bs - Zb c)) by lia.
  rewrite Z.mod_small by lia. lia.
Qed.

Lemma flip_coord_on_board_witness : Zb (flip_coord x13 x03) = 17%Z.
Proof.
  apply (flip_coord_on_board x13 x03). vm_compute. split; discriminate.
Defined.

(** X9: when [flipToComputer] returns, the buffer keeps its length, byte
    4 is 1, byte 12 is 1 with the flag "w" and 0 with any other flag, byte
    16 is 10, and every other byte below 56 keeps its value; with a flag
    other than "w" so does every byte from 64 on. *)
Theorem flipToComputer_flags player unix body body' :
  flipToComputer player unix body = Ret body' ->
  len body' = len body /\
  elems body' !! 4 = Some x01 /\
  elems body' !! 12 = Some (if String.eqb player "w" then x01 else x00) /\
  elems body' !! 16 = Some x0a /\
  (forall p, p < 56 -> p <> 4 -> p <> 12 -> p <> 16 ->
             elems body' !! p = elems body !! p) /\
  (String.eqb player "w" = false ->
   forall p, 64 <= p -> elems body' !! p = elems body !! p).
Proof.
  intros H. destruct (flipToComputer_Ret_shape _ _ _ _ H) as (Hl & Hcase).
  assert (Hfr : forall mid,
             refreshDates unix mid = Ret body' ->
             len body' = len mid /\
             forall p, p < 56 \/ 64 <= p -> elems body' !! p = elems mid !! p).
  { intros mid Hr. destruct (decide (56 <= cap mid)) as [Hc|Hc].
    - destruct (refreshDates_frame unix mid Hc) as (b & Hb & L & F).
      rewrite Hb in Hr. apply Ret_inj in Hr. subst b. auto.
    - rewrite refreshDates_Panic in Hr by lia. discriminate. }
  unfold len in Hl.
  destruct Hcase as [Ep|(-> & bs & E8 & Hw)].
  - rewrite flipToComputer_other in H by (exact Ep || exact Hl).
    destruct (Hfr _ H) as (L & F). rewrite Ep. cbn [elems] in F.
    split; [rewrite L; unfold len; simpl; rewrite !length_insert; reflexivity|].
    split; [rewrite F by lia; rewrite !list_lookup_insert_ne by lia;
            apply list_lookup_insert_eq; lia|].
    split; [rewrite F by lia; rewrite list_lookup_insert_ne by lia;
            apply list_lookup_insert_eq; rewrite length_insert; lia|].
    split; [rewrite F by lia; apply list_lookup_insert_eq;
            rewrite !length_insert; lia|].
    split.
    + intros p Hp H4 H12 H16. rewrite F by lia.
      rewrite !list_lookup_insert_ne by lia. reflexivity.
    + intros _ p Hp. rewrite F by lia.
      rewrite !list_lookup_insert_ne by lia. reflexivity.
  - rewrite (flipToComputer_white unix body bs Hl E8 Hw) in H.
    destruct (Hfr _ H) as (L & F). cbn [elems] in F.
    assert (Hlow : forall p, p < 76 -> p <> 16 ->
               elems body' !! p
               = <[12 := x01]> (<[4 := x01]> (elems body)) !! p
               \/ (56 <= p < 64)).
    { intros p Hp H16. destruct (decide (56 <= p < 64)) as [?|Hn];
        [right; assumption|left].
      rewrite F by lia. rewrite list_lookup_insert_ne by lia.
      rewrite flipped_lookup, is_coord_before by lia.
      apply fmap_keep. reflexivity. }
    split; [rewrite L; unfold len; simpl;
            rewrite length_insert, flipped_length, !length_insert; reflexivity|].
    split; [destruct (Hlow 4) as [->|?]; try lia;
            rewrite list_lookup_insert_ne by lia;
            apply list_lookup_insert_eq; lia|].
    split; [destruct (Hlow 12) as [->|?]; try lia;
            apply list_lookup_insert_eq; rewrite length_insert; lia|].
    split; [rewrite F by lia; apply list_lookup_insert_eq;
            rewrite flipped_length, !length_insert; lia|].
    split.
    + intros p Hp H4 H12 H16. destruct (Hlow p) as [->|?]; try lia.
      rewrite !list_lookup_insert_ne by lia. reflexivity.
    + intros Ep. discriminate Ep.
Qed.

Lemma flipToComputer_flags_witness :
  exists body',
    flipToComputer "b" 7 board_record = Ret body' /\
    elems body' !! 12 = Some x00 /\ elems body' !! 84 = Some x04.
Proof.
  assert (H : exists body', flipToComputer "b" 7 board_record = Ret body')
    by (eexists; vm_compute; reflexivity).
  destruct H as (body' & H). exists body'. split; [exact H|].
  destruct (flipToComputer_flags "b" 7 board_record body' H)
    as (_ & _ & H12 & _ & _ & Hhigh).
  split; [exact H12|]. rewrite (Hhigh eq_refl 84) by lia. reflexivity.
Defined.

End PatchExtras.

Section ShortBuffers.

Implicit Types (body : slice) (p q : nat).

(** X10: on a buffer of fewer than 17 bytes [flipToComputer] panics, on
    an index at or beyond the length, whatever the flag; the nil slice is
    such a buffer. *)
Theorem flipToComputer_short player unix body :
  len body < 17 ->
  exists q, flipToComputer player unix body
            = Panic (IndexOutOfRange q (len body)) /\ len body <= q.
Proof.
  intros Hl. unfold flipToComputer.
  destruct (decide (4 < len body)) as [H4|H4];
    [|exists 4; rewrite assign_Panic by lia; split; [reflexivity | lia]].
  rewrite assign_Ret by exact H4. rewrite bind_Ret.
  set (b1 := Slice _ _).
  assert (L1 : len b1 = len body)
    by (unfold len, b1; simpl; apply length_insert).
  destruct (decide (12 < len body)) as [H12|H12].
  - assert (Hb2 : forall c, exists b2,
               assign b1 12 c = Ret b2 /\ len b2 = len body).
    { intros c. rewrite assign_Ret by lia. eexists. split; [reflexivity|].
      unfold len in *. simpl. rewrite length_insert. exact L1. }
    exists 16.
    assert (Hmid : exists b3,
               (if String.eqb player "w"
                then do body0 <- assign b1 12 x01; flipBoard180 body0
                else assign b1 12 x00) = Ret b3 /\ len b3 = len body).
    { destruct (String.eqb player "w").
      - destruct (Hb2 x01) as (b2 & -> & L2). rewrite bind_Ret.
        destruct (lookup_lt_is_Some_2 (elems b2) 8) as [bs E];
          [unfold len in *; lia|].
        rewrite (flipBoard180_Ret b2 bs E)
          by (apply whole_strides_short; lia).
        eexists. split; [reflexivity|].
        unfold len in *. simpl. rewrite flipped_length. exact L2.
      - apply Hb2. }
    destruct Hmid as (b3 & -> & L3). rewrite bind_Ret.
    rewrite assign_Panic by lia. rewrite L3. split; [reflexivity | lia].
  - exists 12.
    assert (Hp : forall c, assign b1 12 c = Panic (IndexOutOfRange 12 (len body)))
      by (intros c; rewrite assign_Panic by lia; rewrite L1; reflexivity).
    destruct (String.eqb player "w"); rewrite Hp; split; reflexivity || lia.
Qed.

Lemma flipToComputer_short_witness :
  exists q, flipToComputer "b" 0 nil_slice = Panic (IndexOutOfRange q 0).
Proof.
  destruct (flipToComputer_short "b" 0 nil_slice) as (q & H & _).
  - unfold len. simpl. lia.
  - exists q. exact H.
Defined.

(** X11: on an archive without any entry under [game/] the run never
    returns normally: what the scan of [game-online/] does not already
    stop, [flipToComputer] ends by a panic on the nil payload, index 4
    with length 0. *)
Theorem main_no_game (fs : FS) (w : Sink) (inAvx player : string) (unix : Z)
    (files : list File) :
  fs inAvx = Ret files ->
  filter (fun x => matching (game_prefix false) x = true) files = [] ->
  (forall zw, main fs w inAvx player unix <> Ret zw) /\
  (forall r, readAvx fs inAvx true = Ret r ->
             main fs w inAvx player unix = Panic (IndexOutOfRange 4 0)).
Proof.
  intros Hfs Hnone.
  assert (H1 : readAvx fs inAvx false = Ret ("", nil_slice)).
  { unfold readAvx. rewrite Hfs. simpl. apply readAvx_loop_no_match. exact Hnone. }
  assert (H2 : forall r, readAvx fs inAvx true = Ret r ->
                         main fs w inAvx player unix = Panic (IndexOutOfRange 4 0)).
  { intros [n2 b2] Hr. unfold main. rewrite H1, bind_Ret, Hr, bind_Ret.
    reflexivity. }
  split; [|exact H2].
  intros zw Hz. destruct (readAvx fs inAvx true) as [r| | |] eqn:Hr.
  - rewrite (H2 r eq_refl) in Hz. discriminate.
  - unfold main in Hz. rewrite H1, bind_Ret, Hr in Hz. discriminate.
  - unfold main in Hz. rewrite H1, bind_Ret, Hr in Hz. discriminate.
  - unfold main in Hz. rewrite H1, bind_Ret, Hr in Hz. discriminate.
Qed.

Lemma main_no_game_witness :
  main (holding [docs_dir; online_x]) quiet "in.avx" "b" 0
  = Panic (IndexOutOfRange 4 0).
Proof.
  apply (proj2 (main_no_game (holding [docs_dir; online_x]) quiet "in.avx" "b" 0
                  [docs_dir; online_x] eq_refl eq_refl)
           (Name online_x, Data online_x)).
  reflexivity.
Defined.

(** X12: the date refresh panics exactly when the capacity is below 56;
    otherwise it returns a buffer of the same length in which no byte
    outside 56 to 63 has changed, and with a capacity below 60 nothing
    has changed at all, both dates having gone to a buffer of their own. *)
Theorem refreshDates_outcome unix body :
  (cap body < 56 ->
   refreshDates unix body = Panic (SliceOutOfRange 56 (cap body))) /\
  (56 <= cap body ->
   exists body',
     refreshDates unix body = Ret body' /\ len body' = len body /\
     forall p, p < 56 \/ 64 <= p -> elems body' !! p = elems body !! p) /\
  (56 <= cap body < 60 -> refreshDates unix body = Ret body).
Proof.
  split; [apply refreshDates_Panic|]. split; [apply refreshDates_frame|].
  intros H. unfold refreshDates, reslice.
  rewrite decide_True by lia. rewrite decide_True by lia. rewrite bind_Ret.
  unfold binary_Write_int32, Buffer_Write. rewrite le_put_uint32_length.
  rewrite decide_False by lia. reflexivity.
Qed.

End ShortBuffers.

(** * Further properties of the rewrite and of the run *)

Section RewriteMore.

Implicit Types (zw : Writer) (f : File) (files : list File)
  (latestBody : slice) (firstOnline : string).

Lemma writeAvx_loop_app l1 l2 zw latestBody firstOnline :
  writeAvx_loop zw (l1 ++ l2) latestBody firstOnline
  = (do zw1 <- writeAvx_loop zw l1 latestBody firstOnline;
     writeAvx_loop zw1 l2 latestBody firstOnline).
Proof.
  revert zw. induction l1 as [|f l1 IH]; intros zw; [reflexivity|].
  simpl. destruct (writeAvx_entry zw f latestBody firstOnline); simpl;
    try reflexivity.
  apply IH.
Qed.

Lemma to_sink_no_panic zw :
  (exists zw', to_sink zw = Ret zw') \/ (exists err, to_sink zw = Fail err).
Proof. unfold to_sink. destruct (sink zw (ops zw)); eauto. Qed.

Lemma Write_no_panic zw p :
  (exists zw', Write zw p = Ret zw') \/ (exists err, Write zw p = Fail err).
Proof.
  unfold Write. destruct (cur zw) as [o|]; [|eauto].
  destruct (oComp o).
  - match goal with
    | |- context [to_sink ?w] =>
        destruct (to_sink_no_panic w) as [(z & ->)|(err & ->)]
    end; rewrite ?bind_Ret; eauto.
  - destruct p; eauto.
Qed.

Lemma writeAvx_entry_no_panic zw f latestBody firstOnline :
  (exists zw', writeAvx_entry zw f latestBody firstOnline = Ret zw')
  \/ (exists err, writeAvx_entry zw f latestBody firstOnline = Fail err).
Proof.
  unfold writeAvx_entry, Open. destruct (OpenErr f); [right; eauto|].
  rewrite bind_Ret. unfold Create.
  destruct (to_sink_no_panic zw) as [(z1 & ->)|(err & ->)]; [|right; eauto].
  rewrite !bind_Ret.
  destruct (String.eqb (Name f) firstOnline); [apply Write_no_panic|].
  unfold Copy. destruct (elems (Data f)) as [|b l].
  - rewrite bind_Ret. destruct (ReadErr f); eauto.
  - match goal with
    | |- context [Write ?z ?p] =>
        destruct (Write_no_panic z p) as [(z2 & ->)|(err & ->)]
    end; [|right; eauto].
    rewrite bind_Ret. destruct (ReadErr f); eauto.
Qed.

Lemma writeAvx_loop_no_panic files zw latestBody firstOnline :
  (exists zw', writeAvx_loop zw files latestBody firstOnline = Ret zw')
  \/ (exists err, writeAvx_loop zw files latestBody firstOnline = Fail err).
Proof.
  revert zw. induction files as [|f files IH]; intros zw; [left; eexists; reflexivity|].
  simpl.
  destruct (writeAvx_entry_no_panic zw f latestBody firstOnline)
    as [(z1 & ->)|(err & ->)]; [|right; eauto].
  rewrite bind_Ret. apply IH.
Qed.

Lemma rewritten_data latestBody firstOnline f :
  (is_dir_name (Name f) = true -> written_for latestBody firstOnline f = []) ->
  oData (rewritten latestBody firstOnline f) = written_for latestBody firstOnline f.
Proof.
  intros H. unfold rewritten. destruct (is_dir_name (Name f)); [|reflexivity].
  simpl. symmetry. apply H. reflexivity.
Qed.

Lemma rewritten_data_map latestBody firstOnline files :
  Forall (fun f => is_dir_name (Name f) = true ->
                   written_for latestBody firstOnline f = []) files ->
  map oData (map (rewritten latestBody firstOnline) files)
  = map (written_for latestBody firstOnline) files.
Proof.
  induction 1 as [|f files Hf _ IH]; [reflexivity|].
  simpl. rewrite IH, (rewritten_data _ _ _ Hf). reflexivity.
Qed.

End RewriteMore.

Section RewriteExtras.

Implicit Types (fs : FS) (w : Sink) (files : list File)
  (latestBody : slice) (avxName firstOnline : string).

(** X13: [writeAvx] never panics: it returns the error of opening the
    archive when there is one, and otherwise either completes the output
    or returns an error. *)
Theorem writeAvx_never_panics fs w avxName latestBody firstOnline :
  (forall err, fs avxName = Fail err ->
               writeAvx fs w avxName latestBody firstOnline = Fail err) /\
  (forall files, fs avxName = Ret files ->
     (exists zw, writeAvx fs w avxName latestBody firstOnline = Ret zw
                 /\ closed zw = true)
     \/ (exists err, writeAvx fs w avxName latestBody firstOnline = Fail err)).
Proof.
  split.
  - intros err H. unfold writeAvx. rewrite H. reflexivity.
  - intros files H. unfold writeAvx. rewrite H, bind_Ret.
    match goal with
    | |- context [writeAvx_loop ?z files latestBody firstOnline] =>
        destruct (writeAvx_loop_no_panic files z latestBody firstOnline)
          as [(z1 & ->)|(err & ->)]
    end; [|right; eauto].
    rewrite bind_Ret. unfold Close.
    destruct (to_sink_no_panic z1) as [(z2 & ->)|(err & ->)]; [|right; eauto].
    rewrite bind_Ret. left. eexists. split; reflexivity.
Qed.

(** X14: every reference entry is opened, the one to be replaced
    included: the first entry that cannot be opened makes [writeAvx]
    return that error, the entries before it having been copied. *)
Theorem writeAvx_first_unopenable fs w avxName latestBody firstOnline
    files l1 l2 (e : File) (err : error) :
  fs avxName = Ret files ->
  files = l1 ++ e :: l2 ->
  reliable w ->
  Forall readable l1 ->
  Forall (fun f => is_dir_name (Name f) = true ->
                   written_for latestBody firstOnline f = []) l1 ->
  OpenErr e = Some err ->
  writeAvx fs w avxName latestBody firstOnline = Fail err.
Proof.
  intros Hfs -> Hw Hr Hd He. unfold writeAvx. rewrite Hfs, bind_Ret.
  rewrite writeAvx_loop_app.
  destruct (writeAvx_loop_Ret l1
              (RegisterCompressor (NewWriter w) Deflate (Flate flate_NoCompression))
              latestBody firstOnline) as (z1 & ->);
    [reflexivity | exact Hw | exact Hr | exact Hd |].
  rewrite bind_Ret. simpl. unfold writeAvx_entry at 1, Open. rewrite He.
  reflexivity.
Qed.

Lemma writeAvx_first_unopenable_witness :
  writeAvx (holding [game_c; prefs_locked; online_x]) quiet "in.avx"
    board_record "Container/Library/prefs"
  = Fail (ErrIO "unsupported compression").
Proof.
  apply (writeAvx_first_unopenable (holding [game_c; prefs_locked; online_x])
           quiet "in.avx" board_record "Container/Library/prefs"
           [game_c; prefs_locked; online_x] [game_c] [online_x] prefs_locked
           (ErrIO "unsupported compression")).
  - reflexivity.
  - reflexivity.
  - intros k. reflexivity.
  - repeat constructor.
  - repeat constructor. intros Hd. vm_compute in Hd. discriminate Hd.
  - reflexivity.
Defined.

(** X15: when no reference entry bears the substitute name, as when the
    scan of [game-online/] found nothing and the name is empty, a
    completed output has the reference's names and, entry by entry, the
    reference's payloads: it is a plain copy. *)
Theorem writeAvx_copy_when_absent fs w avxName latestBody firstOnline files zw :
  fs avxName = Ret files ->
  Forall (fun f => Name f <> firstOnline) files ->
  writeAvx fs w avxName latestBody firstOnline = Ret zw ->
  map oName (dir zw) = map Name files /\
  map oData (dir zw) = map (fun f => elems (Data f)) files.
Proof.
  intros Hfs Habs H.
  destruct (writeAvx_Ret_inv _ _ _ _ _ _ _ Hfs H) as (Hd & _ & _ & Hdir).
  rewrite Hd. split.
  - rewrite map_map. apply map_ext. intros f. apply rewritten_name.
  - rewrite (rewritten_data_map _ _ _ Hdir).
    clear Hd Hdir H Hfs. induction Habs as [|f files Hf _ IH]; [reflexivity|].
    simpl. rewrite IH. unfold written_for.
    replace (String.eqb (Name f) firstOnline) with false; [reflexivity|].
    symmetry. apply String.eqb_neq. exact Hf.
Qed.

Lemma writeAvx_copy_when_absent_witness :
  exists zw,
    writeAvx (holding sample_files) quiet "in.avx" board_record "" = Ret zw /\
    map oData (dir zw) = map (fun f => elems (Data f)) sample_files.
Proof.
  assert (H : exists zw,
             writeAvx (holding sample_files) quiet "in.avx" board_record ""
             = Ret zw) by (eexists; vm_compute; reflexivity).
  destruct H as (zw & H). exists zw. split; [exact H|].
  apply (writeAvx_copy_when_absent (holding sample_files) quiet "in.avx"
           board_record "" sample_files zw eq_refl); [|exact H].
  repeat constructor; discriminate.
Defined.

(** X16: when the run returns normally, an entry under [game/] with a
    date that is not negative was selected and patched, the output is
    complete, it has the names of the archive in the archive's order, and
    its payloads are those of the archive but for the entries bearing the
    name selected under [game-online/], which hold the patched record. *)
Theorem main_Ret_inv fs w (inAvx player : string) (unix : Z) files zw :
  fs inAvx = Ret files ->
  main fs w inAvx player unix = Ret zw ->
  exists (e : File) (t : Z) firstOnline (b2 patched : slice),
    In e files /\ matching (game_prefix false) e = true /\
    dated e t /\ (0 <= t)%Z /\
    readAvx fs inAvx false = Ret (Name e, Data e) /\
    readAvx fs inAvx true = Ret (firstOnline, b2) /\
    flipToComputer player unix (Data e) = Ret patched /\
    closed zw = true /\
    map oName (dir zw) = map Name files /\
    map oData (dir zw) = map (written_for patched firstOnline) files.
Proof.
  intros Hfs H. unfold main in H.
  destruct (readAvx fs inAvx false) as [[n1 b1]| | |] eqn:R1; try discriminate.
  rewrite bind_Ret in H.
  destruct (readAvx fs inAvx true) as [[n2 b2]| | |] eqn:R2; try discriminate.
  rewrite bind_Ret in H.
  destruct (flipToComputer player unix b1) as [patched| | |] eqn:F; try discriminate.
  rewrite bind_Ret in H.
  pose proof R1 as Hsel. unfold readAvx in Hsel. rewrite Hfs in Hsel.
  simpl in Hsel. apply readAvx_loop_selected in Hsel.
  destruct Hsel as [[-> ->]|(e & t & Hin & Hm & <- & <- & Hd & Ht)].
  - apply flipToComputer_Ret_shape in F. destruct F as [F _].
    unfold len in F. simpl in F. lia.
  - destruct (writeAvx_Ret_inv _ _ _ _ _ _ _ Hfs H) as (Hdir & _ & Hcl & Hdc).
    exists e, t, n2, b2, patched.
    repeat (split; [first [assumption | reflexivity | lia]|]).
    rewrite Hdir. split.
    + rewrite map_map. apply map_ext. intros f. apply rewritten_name.
    + apply rewritten_data_map. exact Hdc.
Qed.

Lemma main_Ret_inv_witness :
  exists zw,
    main (holding sample_files) quiet "in.avx" "w" 1700000000 = Ret zw /\
    map oName (dir zw) = map Name sample_files.
Proof.
  assert (H : exists zw,
             main (holding sample_files) quiet "in.avx" "w" 1700000000 = Ret zw)
    by (eexists; vm_compute; reflexivity).
  destruct H as (zw & H). exists zw. split; [exact H|].
  destruct (main_Ret_inv (holding sample_files) quiet "in.avx" "w" 1700000000
              sample_files zw eq_refl H)
    as (e & t & n2 & b2 & patched & _ & _ & _ & _ & _ & _ & _ & _ & Hn & _).
  exact Hn.
Defined.

End RewriteExtras.
